(** * A shallow embedding of [app2.py]: the narration utility

    The program turns a text into an MP3 narration through one of two
    external text-to-speech services.  Its own logic is
      - [speed_to_edge_rate]: a speed multiplier to the rate string of the
        primary service;
      - [synthesize_edge_tts]: the primary service, streamed into a file;
      - [synthesize_gtts]: the secondary service, with a tempo adjustment
        afterwards;
      - the handler of the "Generate" button, which checks the text, names
        the output file and dispatches to one of the two.

    Python values are modelled as follows.  A [float] is a binary64 number,
    Rocq's primitive [float].  An [int] is a [Z].  The text typed by the user
    is a sequence of Unicode code points, [list N]; the other strings
    (language codes, voice names, file names, messages) are [string]s.
    [bytes] are [list Byte.byte].  A [dict] is a [gmap].  The file system is a
    [gmap] from paths to contents.  A call that may raise returns a
    [result]; code that touches the file system or an external service runs
    in the state-and-exception monad [M] over [world]. *)

From Stdlib Require Import ZArith String Ascii List Lia.
From Stdlib Require Import PrimFloat FloatOps SpecFloat FloatAxioms.
From stdpp Require Import gmap strings pretty.

Set Warnings "-inexact-float".
Local Open Scope string_scope.
#[local] Arguments String.append !s1 s2 : simpl nomatch.

(** ** Python runtime: exceptions and results *)

Module Py.

(** The exception classes the program can meet.  [OtherException] is any
    class of an external library; its flag says whether the class derives
    from [RuntimeError], which is all [except RuntimeError] looks at. *)
Inductive exn_class :=
| RuntimeError
| ValueError
| OverflowError
| KeyError
| FileNotFoundError
| OtherException (name : string) (derives_runtime_error : bool).

(** An exception of a class that derives from [Exception]: its class and
    the text [str(e)] gives. *)
Record exn := Exn { exn_class_of : exn_class; exn_str : string }.

Definition is_RuntimeError (e : exn) : bool :=
  match exn_class_of e with
  | RuntimeError => true
  | OtherException _ b => b
  | _ => false
  end.

(** What a [raise] carries: an exception that derives from [Exception],
    or one of a class that derives from [BaseException] only, such as
    [asyncio.CancelledError] or [KeyboardInterrupt], which
    [except Exception] lets through. *)
Inductive raised :=
| Exc (e : exn)
| Interrupt (name msg : string).

Coercion Exc : exn >-> raised.

(** What [except RuntimeError] catches. *)
Definition raised_is_RuntimeError (r : raised) : bool :=
  match r with
  | Exc e => is_RuntimeError e
  | Interrupt _ _ => false
  end.

(** The outcome of an expression: a value, or a raised exception. *)
Inductive result (A : Type) :=
| Return (a : A)
| Raise (e : raised).
Arguments Return {A} a.
Arguments Raise {A} e.

Definition rbind {A B} (r : result A) (k : A -> result B) : result B :=
  match r with
  | Return a => k a
  | Raise e => Raise e
  end.

Definition returns {A} (r : result A) : bool :=
  match r with Return _ => true | Raise _ => false end.

(** *** [round] on a float

    [round(x)] with one argument gives the nearest [int], ties going to
    the even neighbour; it raises [ValueError] on a NaN and
    [OverflowError] on an infinity. *)

(** The magnitude [m * 2^e] rounded to an integer, ties to even. *)
Definition round_half_even (m : positive) (e : Z) : Z :=
  if (0 <=? e)%Z then (Z.pos m * 2 ^ e)%Z
  else
    let d := (2 ^ (- e))%Z in
    let q := (Z.pos m / d)%Z in
    let r := (Z.pos m mod d)%Z in
    match (2 * r ?= d)%Z with
    | Lt => q
    | Gt => (q + 1)%Z
    | Eq => if Z.even q then q else (q + 1)%Z
    end.

Definition round_sf (v : spec_float) : result Z :=
  match v with
  | S754_zero _ => Return 0%Z
  | S754_finite s m e =>
      let n := round_half_even m e in
      Return (if s then (- n)%Z else n)
  | S754_infinity _ =>
      Raise (Exn OverflowError "cannot convert float infinity to integer")
  | S754_nan =>
      Raise (Exn ValueError "cannot convert float NaN to integer")
  end.

Definition round (x : float) : result Z := round_sf (Prim2SF x).

(** *** Strings *)

(** [str(n)] and [f"{n}"] for an [int]: decimal digits, [-] in front of a
    negative number. *)
Definition str_int (n : Z) : string := pretty n.

Definition lower_ascii (c : ascii) : ascii :=
  let n := nat_of_ascii c in
  if ((65 <=? n) && (n <=? 90))%nat then ascii_of_nat (n + 32) else c.

(** [s.lower()], on the ASCII letters. *)
Fixpoint lower (s : string) : string :=
  match s with
  | EmptyString => EmptyString
  | String c r => String (lower_ascii c) (lower r)
  end.

(** [s.replace(a, b)] for single characters [a] and [b]. *)
Fixpoint replace_char (a b : ascii) (s : string) : string :=
  match s with
  | EmptyString => EmptyString
  | String c r => String (if Ascii.eqb c a then b else c) (replace_char a b r)
  end.

(** [s.startswith(p)]. *)
Definition startswith (s p : string) : bool := String.prefix p s.

(** [c.isspace()] on a code point: the characters whose Unicode category
    is Zs or whose bidirectional class is WS, B or S. *)
Definition isspace (c : N) : bool :=
  ((9 <=? c) && (c <=? 13) || (28 <=? c) && (c <=? 32)
   || (c =? 133) || (c =? 160) || (c =? 5760)
   || (8192 <=? c) && (c <=? 8202)
   || (c =? 8232) || (c =? 8233) || (c =? 8239) || (c =? 8287)
   || (c =? 12288))%N.

Fixpoint lstrip (t : list N) : list N :=
  match t with
  | [] => []
  | c :: r => if isspace c then lstrip r else t
  end.

Definition rstrip (t : list N) : list N := rev (lstrip (rev t)).

(** [t.strip()]. *)
Definition strip (t : list N) : list N := rstrip (lstrip t).

End Py.

Import Py.

(** ** The Rate Mapper *)

Definition SPEED_OPTIONS : list float := [0.5; 0.75; 1.0; 1.25; 1.5]%float.

Definition speed_to_edge_rate (x : float) : result string :=
  rbind (round ((x - 1.0) * 100)%float) (fun pct =>
  if (pct >? 0)%Z then Return ("+" ++ str_int pct ++ "%")
  else if (pct <? 0)%Z then Return (str_int pct ++ "%")
  else Return "+0%").

(** ** The world: files, external services, the page *)

Abbreviation bytes := (list Byte.byte).
Abbreviation text := (list N).

(** A chunk of the primary service's stream: a dict with a ["type"] and,
    for some types, a ["data"] entry. *)
Record chunk := Chunk { chunk_type : string; chunk_data : option bytes }.

(** What [edge_tts.Communicate(text, voice, rate)] does: the constructor
    raises, or the stream yields chunks and then ends or raises; what the
    suspended stream raises can be the cancellation of its task, which is
    no [Exception]. *)
Inductive edge_behaviour :=
| EdgeRejects (e : exn)
| EdgeStreams (cs : list chunk) (failure : option raised).

(** What the tempo adjustment ([AudioSegment.from_file], [speedup],
    [export]) does with the audio of the temporary file: it produces the
    adjusted audio, or it raises; [export] opens the output file before it
    encodes, so a failure can leave some bytes there. *)
Inductive stretch_behaviour :=
| StretchDone (adjusted : bytes)
| StretchFails (e : exn) (left_at_output : option bytes).

(** What [gTTS(text, lang).save(path)] does: it fetches the audio and
    writes it to the path, or it raises; [save] opens the file before it
    fetches, so a failure can leave some bytes there. *)
Inductive gtts_behaviour :=
| GttsSaved (audio : bytes)
| GttsFails (e : exn) (left_at_path : option bytes).

(** The external services and the Python built-ins the program relies on.
    [float_str] is [str] on a float (the shortest decimal that reads back as
    the same float); [loop_running] says whether an event loop is already
    running in the thread of the script. *)
Class Services := {
  float_str : float -> string;
  edge_stream : text -> string -> string -> edge_behaviour;
  gtts_save : text -> string -> gtts_behaviour;
  tempo_stretch : bytes -> float -> stretch_behaviour;
  loop_running : bool
}.

(** The calls made to the external services, oldest first. *)
Inductive call :=
| CallEdge (t : text) (voice rate : string)
| CallGtts (t : text) (lang : string)
| CallStretch (audio : bytes) (speed : float).

(** What the page shows. *)
Inductive ui :=
| UiWarning (msg : string)
| UiSuccess (msg : string)
| UiAudio (data : bytes)
| UiDownload (data : bytes) (file_name : string)
| UiInfo (msg : string)
| UiError (msg : string).

Record world := World {
  files : gmap string bytes;
  calls : list call;
  page : list ui
}.

(** ** The monad of the effectful code *)

Definition M (A : Type) : Type := world -> result A * world.

#[export] Instance M_ret : MRet M := fun A a w => (Return a, w).

#[export] Instance M_bind : MBind M := fun A B k m w =>
  match m w with
  | (Return a, w') => k a w'
  | (Raise e, w') => (Raise e, w')
  end.

Definition raise {A} (e : raised) : M A := fun w => (Raise e, w).

Definition lift {A} (r : result A) : M A := fun w => (r, w).

(** [try: body except Exception as e: handler]: an exception outside
    [Exception] is not caught. *)
Definition try_except {A} (body : M A) (handler : exn -> M A) : M A :=
  fun w =>
    match body w with
    | (Return a, w') => (Return a, w')
    | (Raise (Exc e), w') => handler e w'
    | (Raise (Interrupt name msg), w') => (Raise (Interrupt name msg), w')
    end.

(** [try: body except RuntimeError: handler]. *)
Definition try_except_RuntimeError {A} (body handler : M A) : M A :=
  fun w =>
    match body w with
    | (Return a, w') => (Return a, w')
    | (Raise e, w') =>
        if raised_is_RuntimeError e then handler w' else (Raise e, w')
    end.

Definition set_files (f : gmap string bytes -> gmap string bytes) : M unit :=
  fun w => (Return tt, World (f (files w)) (calls w) (page w)).

Definition log_call (c : call) : M unit :=
  fun w => (Return tt, World (files w) (calls w ++ [c])%list (page w)).

(** A Streamlit element appended to the page. *)
Definition st (u : ui) : M unit :=
  fun w => (Return tt, World (files w) (calls w) (page w ++ [u])%list).

(** *** Files *)

(** [open(p, "wb")]: the file is created, or truncated.  Its directory
    exists: the script makes [outputs] when it starts. *)
Definition open_wb (p : string) : M unit := set_files (insert p []).

(** [f.write(d)] on the file opened at [p]. *)
Definition write (p : string) (d : bytes) : M unit :=
  set_files (fun fs => <[p := (default [] (fs !! p) ++ d)%list]> fs).

(** The exception of a missing file. *)
Definition no_such_file (what : string) : exn :=
  Exn FileNotFoundError ("[Errno 2] No such file or directory: " ++ what).

(** [Path(p).read_bytes()]. *)
Definition read_bytes (p : string) : M bytes :=
  fun w =>
    match files w !! p with
    | Some b => (Return b, w)
    | None => (Raise (no_such_file ("'" ++ p ++ "'")), w)
    end.

(** [Path(p).exists()]. *)
Definition path_exists (p : string) : M bool :=
  fun w => (Return (bool_decide (is_Some (files w !! p))), w).

(** [Path(src).rename(dst)], as POSIX has it: the file moves, replacing
    what was at [dst]. *)
Definition rename (src dst : string) : M unit :=
  fun w =>
    match files w !! src with
    | Some b => set_files (fun fs => <[dst := b]> (delete src fs)) w
    | None => (Raise (no_such_file ("'" ++ src ++ "' -> '" ++ dst ++ "'")), w)
    end.

(** [Path(p).unlink(missing_ok=True)]. *)
Definition unlink_missing_ok (p : string) : M unit := set_files (delete p).

(** *** Paths *)

(** [s.rpartition(c)]: the parts before and after the last [c]. *)
Fixpoint rsplit (c : ascii) (s : string) : option (string * string) :=
  match s with
  | EmptyString => None
  | String a r =>
      match rsplit c r with
      | Some (l, t) => Some (String a l, t)
      | None => if Ascii.eqb a c then Some (EmptyString, r) else None
      end
  end.

Definition nonempty (s : string) : bool :=
  match s with EmptyString => false | String _ _ => true end.

(** The directory part of a path, with its separator, and the name. *)
Definition path_split (p : string) : string * string :=
  match rsplit "/" p with
  | Some (d, n) => (d ++ "/", n)
  | None => (EmptyString, p)
  end.

(** The stem of a name: the name without its suffix, where the suffix runs
    from the last dot, if that dot is neither the first nor the last
    character. *)
Definition path_stem (name : string) : string :=
  match rsplit "." name with
  | Some (stem, ext) => if nonempty stem && nonempty ext then stem else name
  | None => name
  end.

(** [Path(p).with_suffix(suffix)], for a path [p] written as [str] gives
    it for a [Path]: without a trailing separator.  The path [.] has no
    name. *)
Definition with_suffix (p suffix : string) : result string :=
  let (dir, name) := path_split p in
  if bool_decide (is_Some (rsplit "/" suffix))
     || nonempty suffix && negb (startswith suffix ".")
     || String.eqb suffix "."
  then Raise (Exn ValueError ("Invalid suffix '" ++ suffix ++ "'"))
  else if nonempty name && negb (String.eqb p ".")
  then Return (dir ++ path_stem name ++ suffix)
  else Raise (Exn ValueError ("PosixPath('" ++ p ++ "') has an empty name")).

Definition OUTPUT_DIR : string := "outputs".

(** [dir / name], for a relative [name]. *)
Definition path_join (dir name : string) : string := dir ++ "/" ++ name.

(** ** The voice catalog *)

Definition VOICES : gmap (string * string) string :=
  <[("en", "Female") := "en-US-JennyNeural"]> (
  <[("en", "Male") := "en-US-GuyNeural"]> (
  <[("ja", "Female") := "ja-JP-NanamiNeural"]> (
  <[("ja", "Male") := "ja-JP-KeitaNeural"]> ∅))).

(** [d[k]]. *)
Definition getitem (d : gmap (string * string) string) (k : string * string)
  : result string :=
  match d !! k with
  | Some v => Return v
  | None => Raise (Exn KeyError ("('" ++ fst k ++ "', '" ++ snd k ++ "')"))
  end.

(** [VOICES.get((lang, gender), VOICES[("en", "Female")])]; the default is
    evaluated first. *)
Definition resolve_voice (lang gender : string) : result string :=
  rbind (getitem VOICES ("en", "Female")) (fun dflt =>
  Return (default dflt (VOICES !! (lang, gender)))).

(** ** The Synthesis Dispatcher *)

(** [chunk["data"]]. *)
Definition chunk_getitem_data (c : chunk) : result bytes :=
  match chunk_data c with
  | Some d => Return d
  | None => Raise (Exn KeyError "'data'")
  end.

(** The body of the [async for] loop, over the chunks the stream yields. *)
Fixpoint write_audio (p : string) (cs : list chunk) : M unit :=
  match cs with
  | [] => mret tt
  | c :: r =>
      (if String.eqb (chunk_type c) "audio"
       then d ← lift (chunk_getitem_data c); write p d
       else mret tt);;
      write_audio p r
  end.

(** [abs(speed - 1.0) < 1e-6]. *)
Definition is_unity (speed : float) : bool :=
  (abs (speed - 1.0) <? 1e-6)%float.

Definition speed_change_failed : string :=
  "gTTSの速度変更に失敗しました（ffmpeg未導入の可能性）。通常速度の音声を出力しました。詳細: ".

(** ** The clock *)

(** A reading of the clock, to the second. *)
Record datetime := Datetime {
  year : N; month : N; day : N;
  hour : N; minute : N; second : N
}.

(** The readings [datetime.now()] can give; their years have four digits. *)
Definition valid_datetime (d : datetime) : bool :=
  ((1000 <=? year d) && (year d <=? 9999)
   && (1 <=? month d) && (month d <=? 12)
   && (1 <=? day d) && (day d <=? 31)
   && (hour d <=? 23) && (minute d <=? 59) && (second d <=? 59))%N.

Definition digit (n : N) : ascii := ascii_of_N (48 + n mod 10).

(** A number in two digits, as [%m], [%d], [%H], [%M] and [%S] print it. *)
Definition pad2 (n : N) (rest : string) : string :=
  String (digit (n / 10)) (String (digit n) rest).

(** A number in four digits, as [%Y] prints a year from 1000 on. *)
Definition pad4 (n : N) (rest : string) : string :=
  pad2 (n / 100) (pad2 (n mod 100) rest).

(** [d.strftime("%Y%m%d_%H%M%S")]. *)
Definition strftime (d : datetime) : string :=
  pad4 (year d) (pad2 (month d) (pad2 (day d) (String "_"
    (pad2 (hour d) (pad2 (minute d) (pad2 (second d) EmptyString)))))).

Section Program.
Context `{Services}.

Definition synthesize_edge_tts
    (t : text) (lang gender : string) (speed : float) (out_path : string)
  : M string :=
  voice ← lift (resolve_voice lang gender);
  rate_str ← lift (speed_to_edge_rate speed);
  log_call (CallEdge t voice rate_str);;
  match edge_stream t voice rate_str with
  | EdgeRejects e => raise e
  | EdgeStreams cs failure =>
      open_wb out_path;;
      write_audio out_path cs;;
      match failure with
      | Some e => raise e
      | None => mret out_path
      end
  end.

(** [gTTS(text=t, lang=lang).save(p)]. *)
Definition gtts_save_to (t : text) (lang p : string) : M unit :=
  log_call (CallGtts t lang);;
  match gtts_save t lang with
  | GttsSaved audio => open_wb p;; write p audio
  | GttsFails e left_at_path =>
      match left_at_path with
      | Some b => open_wb p;; write p b
      | None => mret tt
      end;;
      raise e
  end.

(** The three lines of the tempo adjustment: decode the temporary file,
    change its tempo, encode to the output path. *)
Definition stretch_to (tmp_path : string) (speed : float) (out_path : string)
  : M unit :=
  audio ← read_bytes tmp_path;
  log_call (CallStretch audio speed);;
  match tempo_stretch audio speed with
  | StretchDone adjusted => open_wb out_path;; write out_path adjusted
  | StretchFails e left_at_output =>
      match left_at_output with
      | Some b => open_wb out_path;; write out_path b
      | None => mret tt
      end;;
      raise e
  end.

Definition synthesize_gtts
    (t : text) (lang : string) (speed : float) (out_path : string)
  : M string :=
  tmp_path ← lift (with_suffix out_path ".tmp.mp3");
  gtts_save_to t lang tmp_path;;
  if is_unity speed then
    rename tmp_path out_path;;
    mret out_path
  else
    try_except
      (stretch_to tmp_path speed out_path;;
       unlink_missing_ok tmp_path;;
       mret out_path)
      (fun e =>
         rename tmp_path out_path;;
         raise (Exn RuntimeError (speed_change_failed ++ exn_str e))).

(** ** The handler of the "Generate" button *)

(** The f-string that names the output file. *)
Definition filename (lang gender : string) (speed : float) (timestamp : string)
  : string :=
  "tekross_voice_" ++ lang ++ "_" ++ lower gender ++ "_"
  ++ replace_char "." "_" (float_str speed) ++ "x_" ++ timestamp ++ ".mp3".

Definition out_path_of
    (lang gender : string) (speed : float) (now : datetime) : string :=
  path_join OUTPUT_DIR (filename lang gender speed (strftime now)).

(** [asyncio.run(coro)]: refused inside a running event loop, before the
    coroutine starts. *)
Definition asyncio_run {A} (coro : M A) : M A :=
  if loop_running
  then raise (Exn RuntimeError
                "asyncio.run() cannot be called from a running event loop")
  else coro.

(** [loop = asyncio.new_event_loop(); loop.run_until_complete(coro);
    loop.close()]. *)
Definition run_in_new_loop {A} (coro : M A) : M A :=
  if loop_running
  then raise (Exn RuntimeError
                "Cannot run the event loop while another loop is running")
  else coro.

(** The body of [if generate:], for the values of the widgets and the
    reading of the clock.  [st.stop()] ends the run of the script. *)
Definition on_generate
    (t : text) (lang gender engine : string) (speed : float) (now : datetime)
  : M unit :=
  match strip t with
  | [] => st (UiWarning "Please enter some text. / テキストを入力してください。")
  | _ :: _ =>
      let name := filename lang gender speed (strftime now) in
      let out_path := path_join OUTPUT_DIR name in
      try_except
        ((if startswith engine "Edge-TTS" then
            try_except_RuntimeError
              (asyncio_run (synthesize_edge_tts t lang gender speed out_path))
              (run_in_new_loop
                 (synthesize_edge_tts t lang gender speed out_path))
          else synthesize_gtts t lang speed out_path);;
         st (UiSuccess "Done! / 生成しました。");;
         audio_bytes ← read_bytes out_path;
         st (UiAudio audio_bytes);;
         st (UiDownload audio_bytes name);;
         st (UiInfo ("Saved to: " ++ out_path)))
        (fun e =>
           st (UiError ("Error: " ++ exn_str e));;
           found ← path_exists out_path;
           if found : bool then
             audio_bytes ← read_bytes out_path;
             st (UiAudio audio_bytes);;
             st (UiDownload audio_bytes name)
           else mret tt)
  end.

(** The script after the widgets: the handler runs when the button was
    pressed. *)
Definition script
    (generate : bool) (t : text) (lang gender engine : string)
    (speed : float) (now : datetime) : M unit :=
  if generate then on_generate t lang gender engine speed now else mret tt.

End Program.

(** The name the spec gives to an output artifact:
    [{prefix}_{language}_{gender}_{speed-with-underscore}x_{timestamp}.mp3]. *)
Definition spec_artifact_name
    (prefix language gender speed_tag timestamp : string) : string :=
  prefix ++ "_" ++ language ++ "_" ++ gender ++ "_" ++ speed_tag ++ "x_"
  ++ timestamp ++ ".mp3".

(** The audio the spec says is persisted: the payloads of the audio chunks,
    in the order of arrival. *)
Definition audio_payload (cs : list chunk) : bytes :=
  flat_map (fun c => default [] (chunk_data c))
    (filter (fun c => chunk_type c = "audio") cs).

(** ** A sample of the services, for the examples *)

Definition sample_float_str (x : float) : string :=
  if (x =? 0.5)%float then "0.5"
  else if (x =? 0.75)%float then "0.75"
  else if (x =? 1.0)%float then "1.0"
  else if (x =? 1.25)%float then "1.25"
  else if (x =? 1.5)%float then "1.5"
  else "nan".

(** A chunk as the primary service documents it: an audio chunk carries
    its payload. *)
Definition well_formed_chunk (c : chunk) : Prop :=
  chunk_type c = "audio" -> is_Some (chunk_data c).

(** The audio the page offers, for playing and for download. *)
Definition offered_audio (pg : list ui) : list bytes :=
  omap (fun u => match u with
                 | UiAudio b | UiDownload b _ => Some b
                 | _ => None
                 end) pg.

(** What [str] gives on the five speed options, in their order. *)
Definition SPEED_STRINGS : list string := ["0.5"; "0.75"; "1.0"; "1.25"; "1.5"].

(** A [str] on floats that prints the speed options as Python does. *)
Definition prints_speed_options (str : float -> string) : Prop :=
  map str SPEED_OPTIONS = SPEED_STRINGS.

(** The speed options as the file name shows them. *)
Definition SPEED_TAGS : list string := ["0_5"; "0_75"; "1_0"; "1_25"; "1_5"].

(** The values the sidebar gives for the language and the gender. *)
Definition LANGUAGES : list string := ["en"; "ja"].
Definition GENDERS : list string := ["Female"; "Male"].

(** A world with no file, no call made and an empty page. *)
Definition empty_world : world := World ∅ [] [].

(** Services whose primary backend cannot be reached: the stream raises
    before it yields a chunk. *)
Definition unreachable_primary : Services := {|
  float_str := sample_float_str;
  edge_stream := fun _ _ _ =>
    EdgeStreams []
      (Some (Exc (Exn (OtherException "ClientConnectorError" false)
                    "Cannot connect to host speech.platform.bing.com:443")));
  gtts_save := fun _ _ => GttsSaved [Byte.x49; Byte.x44; Byte.x33];
  tempo_stretch := fun audio _ => StretchDone audio;
  loop_running := false
|}.

(** Services that work, with a stream of three chunks, and without the
    decoder the tempo adjustment needs. *)
Definition sample_services : Services := {|
  float_str := sample_float_str;
  edge_stream := fun _ _ _ =>
    EdgeStreams [Chunk "audio" (Some [Byte.x01; Byte.x02]);
                 Chunk "WordBoundary" None;
                 Chunk "audio" (Some [Byte.x03])] None;
  gtts_save := fun _ _ => GttsSaved [Byte.x49; Byte.x44; Byte.x33];
  tempo_stretch := fun _ _ =>
    StretchFails (Exn FileNotFoundError "No such file or directory: 'ffprobe'")
      (Some []);
  loop_running := false
|}.

Definition sample_now : datetime := Datetime 2024 1 2 3 4 5.

(** ** Further definitions for the properties below *)

Definition is_digit (c : ascii) : bool :=
  ((48 <=? N_of_ascii c) && (N_of_ascii c <=? 57))%N.

Fixpoint all_digits (s : string) : bool :=
  match s with
  | EmptyString => true
  | String c r => is_digit c && all_digits r
  end.

(** The shape of a rate the primary service accepts: a sign, at least one
    decimal digit, a percent sign. *)
Definition signed_percentage (s : string) : Prop :=
  exists sign digits,
    s = String sign (digits ++ "%")
    /\ (sign = "+"%char \/ sign = "-"%char)
    /\ digits <> EmptyString /\ all_digits digits = true.

(** The calls to the primary service. *)
Definition is_edge_call (c : call) : bool :=
  match c with CallEdge _ _ _ => true | _ => false end.

(** Services whose stream holds an audio chunk without its payload. *)
Definition malformed_stream_services : Services := {|
  float_str := sample_float_str;
  edge_stream := fun _ _ _ =>
    EdgeStreams [Chunk "audio" (Some [Byte.x01; Byte.x02]);
                 Chunk "audio" None;
                 Chunk "audio" (Some [Byte.x03])] None;
  gtts_save := fun _ _ => GttsSaved [Byte.x49; Byte.x44; Byte.x33];
  tempo_stretch := fun audio _ => StretchDone audio;
  loop_running := false
|}.

(** Services whose stream breaks off with a [RuntimeError] after one chunk,
    and whose secondary backend fails after it has opened its file. *)
Definition faulty_services : Services := {|
  float_str := sample_float_str;
  edge_stream := fun _ _ _ =>
    EdgeStreams [Chunk "audio" (Some [Byte.x01; Byte.x02])]
      (Some (Exc (Exn RuntimeError "Session is closed")));
  gtts_save := fun _ _ =>
    GttsFails (Exn (OtherException "gTTSError" false) "Failed to connect")
      (Some []);
  tempo_stretch := fun audio _ => StretchDone audio;
  loop_running := false
|}.

(** Services whose stream is cut short by the cancellation of its task,
    after one chunk. *)
Definition cancelled_stream_services : Services := {|
  float_str := sample_float_str;
  edge_stream := fun _ _ _ =>
    EdgeStreams [Chunk "audio" (Some [Byte.x01; Byte.x02])]
      (Some (Interrupt "CancelledError" ""));
  gtts_save := fun _ _ => GttsSaved [Byte.x49; Byte.x44; Byte.x33];
  tempo_stretch := fun audio _ => StretchDone audio;
  loop_running := false
|}.

(** Services as the script finds them when an event loop is already
    running in its thread. *)
Definition nested_loop_services : Services := {|
  float_str := sample_float_str;
  edge_stream := fun _ _ _ =>
    EdgeStreams [Chunk "audio" (Some [Byte.x01; Byte.x02])] None;
  gtts_save := fun _ _ => GttsSaved [Byte.x49; Byte.x44; Byte.x33];
  tempo_stretch := fun audio _ => StretchDone audio;
  loop_running := true
|}.

(** ** Theorems *)

(** *** Python runtime *)

(** A float is finite exactly when its decoding is a zero or a finite
    number. *)
Lemma is_finite_Prim2SF (x : float) :
  is_finite x =
  match Prim2SF x with
  | S754_zero _ | S754_finite _ _ _ => true
  | _ => false
  end.
Proof.
  unfold is_finite, is_nan, is_infinity.
  rewrite !FloatAxioms.eqb_spec, FloatAxioms.abs_spec.
  change (Prim2SF infinity) with (S754_infinity false).
  destruct (Prim2SF x) as [s|s| |s m e]; try reflexivity.
  - destruct s; reflexivity.
  - unfold SFeqb, SFcompare, SFabs.
    rewrite Z.compare_refl, Pos.compare_cont_refl.
    destruct s; reflexivity.
Qed.

Lemma round_returns_iff_finite (x : float) :
  returns (round x) = is_finite x.
Proof.
  rewrite is_finite_Prim2SF. unfold round.
  destruct (Prim2SF x); reflexivity.
Qed.

(** *** Strings and paths *)

Lemma length_append (a b : string) :
  String.length (a ++ b) = String.length a + String.length b.
Proof. induction a as [|c a IH]; simpl; [reflexivity | now rewrite IH]. Qed.

Lemma append_assoc (a b c : string) : (a ++ b) ++ c = a ++ b ++ c.
Proof. induction a as [|x a IH]; simpl; [reflexivity | now rewrite IH]. Qed.

(** Two strings that end in parts of the same length agree part by part. *)
Lemma append_inj_length (a b s1 s2 : string) :
  String.length s1 = String.length s2 ->
  a ++ s1 = b ++ s2 -> a = b /\ s1 = s2.
Proof.
  revert b. induction a as [|x a IH]; intros [|y b] Hlen Heq; cbn in Heq.
  - now split.
  - apply (f_equal String.length) in Heq. cbn in Heq.
    rewrite length_append in Heq. lia.
  - apply (f_equal String.length) in Heq. cbn in Heq.
    rewrite length_append in Heq. lia.
  - injection Heq as -> Heq. destruct (IH b Hlen Heq) as [-> ->]. now split.
Qed.

Lemma rsplit_spec (c : ascii) (s l t : string) :
  rsplit c s = Some (l, t) -> s = l ++ String c t /\ rsplit c t = None.
Proof.
  revert l. induction s as [|a s IH]; intros l; cbn; [discriminate|].
  destruct (rsplit c s) as [[l' t']|] eqn:E.
  - intros [= <- <-]. destruct (IH l' eq_refl) as [-> Ht]. now split.
  - destruct (Ascii.eqb_spec a c) as [->|]; [|discriminate].
    intros [= <- <-]. now split.
Qed.

Lemma rsplit_app_None (c : ascii) (a b : string) :
  rsplit c b = None ->
  rsplit c (a ++ b)
  = match rsplit c a with Some (l, t) => Some (l, t ++ b) | None => None end.
Proof.
  intros Hb. induction a as [|x a IH]; cbn; [exact Hb|].
  rewrite IH. destruct (rsplit c a) as [[l t]|]; [reflexivity|].
  destruct (Ascii.eqb x c); reflexivity.
Qed.

Lemma rsplit_app_Some (c : ascii) (a b l t : string) :
  rsplit c b = Some (l, t) -> rsplit c (a ++ b) = Some (a ++ l, t).
Proof.
  intros Hb. induction a as [|x a IH]; cbn; [exact Hb|]. now rewrite IH.
Qed.

Lemma path_split_spec (p dir name : string) :
  path_split p = (dir, name) -> p = dir ++ name.
Proof.
  unfold path_split. destruct (rsplit "/" p) as [[d n]|] eqn:E.
  - intros [= <- <-]. apply rsplit_spec in E as [-> _].
    now rewrite append_assoc.
  - now intros [= <- <-].
Qed.

(** The temporary path of an output path that ends in [.mp3] after a
    character other than the separator: [.tmp.mp3] takes the place of
    [.mp3]. *)
Lemma with_suffix_mp3 (a : string) (d : ascii) :
  d <> "/"%char ->
  with_suffix (a ++ String d ".mp3") ".tmp.mp3"
  = Return (a ++ String d ".tmp.mp3").
Proof.
  intros Hd. unfold with_suffix, path_split.
  assert (Hp : String.eqb (a ++ String d ".mp3") "." = false).
  { apply String.eqb_neq. intros E. apply (f_equal String.length) in E.
    rewrite length_append in E. cbn in E. lia. }
  rewrite Hp.
  assert (Hs : rsplit "/" (String d ".mp3") = None).
  { cbn. destruct (Ascii.eqb_spec d "/"); [contradiction | reflexivity]. }
  assert (Hdot : forall t, path_stem (t ++ String d ".mp3") = t ++ String d "").
  { intros t. unfold path_stem.
    rewrite (rsplit_app_Some "." t (String d ".mp3") (String d "") "mp3")
      by reflexivity.
    destruct t; reflexivity. }
  rewrite (rsplit_app_None _ _ _ Hs).
  destruct (rsplit "/" a) as [[l t]|] eqn:E.
  - apply rsplit_spec in E as [-> _]. rewrite Hdot.
    replace (nonempty (t ++ String d ".mp3")) with true by (destruct t; reflexivity).
    cbn -[append]. rewrite !append_assoc. simpl. reflexivity.
  - rewrite Hdot.
    replace (nonempty (a ++ String d ".mp3")) with true by (destruct a; reflexivity).
    cbn -[append]. rewrite ?append_assoc. simpl. reflexivity.
Qed.

(** The temporary path is never the output path itself. *)
Lemma with_suffix_tmp_ne (p tmp : string) :
  with_suffix p ".tmp.mp3" = Return tmp -> tmp <> p.
Proof.
  unfold with_suffix. destruct (path_split p) as [dir name] eqn:Hp.
  apply path_split_spec in Hp as ->. cbn -[append path_stem String.eqb].
  destruct (nonempty name && _); [|discriminate].
  intros [= <-] Heq. rewrite <- append_assoc in Heq.
  assert (Hlen : String.length (path_stem name ++ ".tmp.mp3") = String.length name).
  { apply (f_equal String.length) in Heq.
    rewrite !append_assoc, !length_append in Heq. rewrite length_append. lia. }
  rewrite append_assoc in Heq.
  apply String.app_inj in Heq.
  unfold path_stem in *.
  destruct (rsplit "." name) as [[stem ext]|] eqn:E.
  - destruct (nonempty stem && nonempty ext).
    + apply rsplit_spec in E as [-> Hext].
      apply String.app_inj in Heq. injection Heq as <-. discriminate Hext.
    + rewrite length_append in Hlen. cbn in Hlen. lia.
  - rewrite length_append in Hlen. cbn in Hlen. lia.
Qed.

(** *** The Rate Mapper *)

(** C1. On the five speed options 0.5, 0.75, 1.0, 1.25 and 1.5 the Rate
    Mapper returns "-50%", "-25%", "+0%", "+25%" and "+50%"; the percentages
    it rounds to are -50, -25, 0, 25 and 50, and the positive ones are
    written with their sign. *)
Theorem speed_to_edge_rate_options :
  map speed_to_edge_rate SPEED_OPTIONS
  = map Return ["-50%"; "-25%"; "+0%"; "+25%"; "+50%"]
  /\ map (fun x => round ((x - 1.0) * 100)%float) SPEED_OPTIONS
     = map Return [-50; -25; 0; 25; 50]%Z.
Proof. split; vm_compute; reflexivity. Qed.

(** Outside the speed options the Rate Mapper can raise: on a NaN the call
    of [round] raises [ValueError], and on an infinity [OverflowError]. *)
Lemma speed_to_edge_rate_not_total :
  speed_to_edge_rate nan
  = Raise (Exn ValueError "cannot convert float NaN to integer")
  /\ speed_to_edge_rate infinity
     = Raise (Exn OverflowError "cannot convert float infinity to integer")
  /\ ~ (forall x : float, exists s, speed_to_edge_rate x = Return s).
Proof.
  split; [vm_compute; reflexivity|].
  split; [vm_compute; reflexivity|].
  intros H. destruct (H nan) as [s Hs]. vm_compute in Hs. discriminate.
Qed.

(** The only float equal to 1.0 is 1.0. *)
Lemma eqb_one (x : float) : (x =? 1.0)%float = true -> x = 1.0%float.
Proof.
  rewrite FloatAxioms.eqb_spec. intros E. apply Prim2SF_inj.
  change (Prim2SF 1.0) with (S754_finite false 4503599627370496 (-52)) in *.
  destruct (Prim2SF x) as [s|s| |s m e]; try discriminate E.
  - destruct s; discriminate E.
  - unfold SFeqb, SFcompare in E. destruct s; [discriminate E|].
    destruct (e ?= -52)%Z eqn:He; try discriminate E.
    apply Z.compare_eq in He. subst e.
    destruct (Pos.compare_cont Eq m 4503599627370496) eqn:Hm; try discriminate E.
    apply Pos.compare_eq in Hm. subst m. reflexivity.
Qed.

(** C7. On every speed the sidebar can pass the Rate Mapper returns a
    string, and more generally it returns exactly when [(x - 1.0) * 100] is
    a finite float.  For no input does it return the unsigned "0%"; whenever
    the rounded percentage is 0, and so for every input equal to 1.0, it
    returns "+0%". *)
Theorem speed_to_edge_rate_never_unsigned_zero (x : float) :
  (In x SPEED_OPTIONS -> exists s, speed_to_edge_rate x = Return s)
  /\ returns (speed_to_edge_rate x) = is_finite ((x - 1.0) * 100)%float
  /\ speed_to_edge_rate x <> Return "0%"
  /\ (round ((x - 1.0) * 100)%float = Return 0%Z ->
      speed_to_edge_rate x = Return "+0%")
  /\ ((x =? 1.0)%float = true -> speed_to_edge_rate x = Return "+0%").
Proof.
  split; [|split; [|split; [|split]]].
  - unfold SPEED_OPTIONS. cbn [In].
    intros [<-|[<-|[<-|[<-|[<-|[]]]]]]; eexists; vm_compute; reflexivity.
  - rewrite <- round_returns_iff_finite. unfold speed_to_edge_rate.
    destruct (round _) as [pct|e]; [|reflexivity]. cbn.
    destruct (pct >? 0)%Z; [reflexivity|].
    destruct (pct <? 0)%Z; reflexivity.
  - unfold speed_to_edge_rate.
    destruct (round _) as [pct|e]; [|discriminate]. cbn.
    destruct pct as [|p|p]; cbn; try discriminate.
  - intros H. unfold speed_to_edge_rate. rewrite H. reflexivity.
  - intros E. apply eqb_one in E as ->. vm_compute. reflexivity.
Qed.

Lemma speed_to_edge_rate_never_unsigned_zero_witness :
  (exists s, speed_to_edge_rate 0.75%float = Return s)
  /\ speed_to_edge_rate 1.004%float <> Return "0%"
  /\ speed_to_edge_rate 1.004%float = Return "+0%"
  /\ speed_to_edge_rate 1.0%float = Return "+0%".
Proof.
  destruct (speed_to_edge_rate_never_unsigned_zero 0.75%float) as (Hopt & _).
  destruct (speed_to_edge_rate_never_unsigned_zero 1.004%float)
    as (_ & _ & Hnz & Hz & _).
  destruct (speed_to_edge_rate_never_unsigned_zero 1.0%float)
    as (_ & _ & _ & _ & Hone).
  split; [|split; [|split]].
  - apply Hopt. unfold SPEED_OPTIONS. cbn. auto.
  - exact Hnz.
  - apply Hz. vm_compute. reflexivity.
  - apply Hone. vm_compute. reflexivity.
Defined.

(** *** The monad *)

Ltac run :=
  unfold synthesize_edge_tts, gtts_save_to, stretch_to, open_wb, write,
    unlink_missing_ok, rename, read_bytes, path_exists, set_files, log_call,
    st, lift, raise, try_except, try_except_RuntimeError, mbind, M_bind,
    mret, M_ret;
  cbn [files calls page fst snd rbind].

(** *** The voice catalog *)

Lemma VOICES_default : getitem VOICES ("en", "Female") = Return "en-US-JennyNeural".
Proof. vm_compute. reflexivity. Qed.

Lemma resolve_voice_eq (lang gender : string) :
  resolve_voice lang gender
  = Return (default "en-US-JennyNeural" (VOICES !! (lang, gender))).
Proof. unfold resolve_voice. rewrite VOICES_default. reflexivity. Qed.

(** C5. Voice resolution never fails.  A pair registered in the catalog
    resolves to its entry, and so ("en", "Male") to the entry
    "en-US-GuyNeural"; a pair that is not registered resolves to the entry
    of ("en", "Female"), which is "en-US-JennyNeural". *)
Theorem resolve_voice_total (lang gender : string) :
  (exists voice, resolve_voice lang gender = Return voice)
  /\ (forall voice, VOICES !! (lang, gender) = Some voice ->
      resolve_voice lang gender = Return voice)
  /\ (VOICES !! (lang, gender) = None ->
      resolve_voice lang gender = Return "en-US-JennyNeural")
  /\ VOICES !! ("en", "Female") = Some "en-US-JennyNeural"
  /\ VOICES !! ("en", "Male") = Some "en-US-GuyNeural"
  /\ resolve_voice "en" "Male" = Return "en-US-GuyNeural".
Proof.
  rewrite resolve_voice_eq.
  split; [eauto|]. split; [|split; [|split; [|split]]].
  - intros voice ->. reflexivity.
  - intros ->. reflexivity.
  - vm_compute. reflexivity.
  - vm_compute. reflexivity.
  - vm_compute. reflexivity.
Qed.

Lemma resolve_voice_total_witness :
  resolve_voice "ja" "Male" = Return "ja-JP-KeitaNeural"
  /\ resolve_voice "fr" "Female" = Return "en-US-JennyNeural"
  /\ resolve_voice "en" "male" = Return "en-US-JennyNeural".
Proof.
  destruct (resolve_voice_total "ja" "Male") as (_ & Hreg & _).
  destruct (resolve_voice_total "fr" "Female") as (_ & _ & Hfr & _).
  destruct (resolve_voice_total "en" "male") as (_ & _ & Hcase & _).
  split; [|split]; [apply Hreg | apply Hfr | apply Hcase];
    vm_compute; reflexivity.
Defined.

(** *** The primary service *)

Lemma audio_payload_cons (c : chunk) (cs : list chunk) :
  audio_payload (c :: cs)
  = ((if String.eqb (chunk_type c) "audio" then default [] (chunk_data c) else [])
     ++ audio_payload cs)%list.
Proof.
  unfold audio_payload. rewrite filter_cons.
  destruct (String.eqb_spec (chunk_type c) "audio") as [E|E].
  - rewrite decide_True by exact E. reflexivity.
  - rewrite decide_False by exact E. reflexivity.
Qed.

(** The loop appends the payloads of the audio chunks to the open file and
    touches nothing else. *)
Lemma write_audio_run (p : string) (cs : list chunk) :
  Forall well_formed_chunk cs ->
  forall (fs : gmap string bytes) (cl : list call) (pg : list ui) (b : bytes),
  fs !! p = Some b ->
  write_audio p cs (World fs cl pg)
  = (Return tt, World (<[p := (b ++ audio_payload cs)%list]> fs) cl pg).
Proof.
  induction 1 as [|c cs Hc _ IH]; intros fs cl pg b Hb.
  - cbn. rewrite app_nil_r, insert_id by exact Hb. reflexivity.
  - rewrite audio_payload_cons. cbn [write_audio]. unfold well_formed_chunk in Hc.
    destruct (String.eqb_spec (chunk_type c) "audio") as [E|E].
    + destruct (Hc E) as [d Hd]. unfold chunk_getitem_data. rewrite Hd. run.
      rewrite Hb. cbn [default].
      rewrite (IH _ _ _ (b ++ d)%list) by apply lookup_insert_eq.
      rewrite insert_insert_eq, app_assoc. reflexivity.
    + run. rewrite (IH _ _ _ b Hb). reflexivity.
Qed.

(** Whatever the chunks are, the loop leaves in the file the payloads of
    the audio chunks it has consumed, in order: those of all the chunks, or
    of the ones before an audio chunk that lacks its payload. *)
Lemma write_audio_prefix (p : string) (cs : list chunk) :
  forall (fs : gmap string bytes) (cl : list call) (pg : list ui) (b : bytes),
  fs !! p = Some b ->
  exists n, n <= length cs
    /\ snd (write_audio p cs (World fs cl pg))
       = World (<[p := (b ++ audio_payload (take n cs))%list]> fs) cl pg.
Proof.
  induction cs as [|c cs IH]; intros fs cl pg b Hb.
  - exists 0. split; [reflexivity|]. cbn.
    rewrite app_nil_r, insert_id by exact Hb. reflexivity.
  - cbn [write_audio].
    destruct (String.eqb (chunk_type c) "audio") eqn:E.
    + destruct (chunk_data c) as [d|] eqn:Hd.
      * destruct (IH (<[p := (b ++ d)%list]> fs) cl pg (b ++ d)%list)
          as (n & Hn & Hrun); [apply lookup_insert_eq|].
        exists (S n). split; [cbn; lia|].
        cbn [take]. rewrite audio_payload_cons, E, Hd. cbn [default].
        unfold chunk_getitem_data. rewrite Hd. run. rewrite Hb. cbn [default].
        destruct (write_audio p cs _) as [[u|e] w'];
          cbn [snd] in *; rewrite Hrun, insert_insert_eq, app_assoc; reflexivity.
      * exists 0. split; [cbn; lia|].
        unfold chunk_getitem_data. rewrite Hd. run. cbn.
        rewrite app_nil_r, insert_id by exact Hb. reflexivity.
    + destruct (IH fs cl pg b Hb) as (n & Hn & Hrun).
      exists (S n). split; [cbn; lia|].
      cbn [take]. rewrite audio_payload_cons, E. run.
      destruct (write_audio p cs _) as [[u|e] w'];
        cbn [snd] in *; rewrite Hrun; reflexivity.
Qed.

Section Primary.
Context `{Services}.
Variables (t : text) (lang gender : string) (speed : float) (out_path : string).
Variables (voice rate : string).
Hypothesis Hvoice : resolve_voice lang gender = Return voice.
Hypothesis Hrate : speed_to_edge_rate speed = Return rate.

Lemma synthesize_edge_tts_rejected (e : exn) (w : world) :
  edge_stream t voice rate = EdgeRejects e ->
  synthesize_edge_tts t lang gender speed out_path w
  = (Raise e, World (files w) (calls w ++ [CallEdge t voice rate])%list (page w)).
Proof.
  intros He. run. rewrite Hvoice, Hrate. cbn. rewrite He. reflexivity.
Qed.

Lemma synthesize_edge_tts_streams
    (cs : list chunk) (failure : option raised) (w : world) :
  edge_stream t voice rate = EdgeStreams cs failure ->
  Forall well_formed_chunk cs ->
  synthesize_edge_tts t lang gender speed out_path w
  = (match failure with Some e => Raise e | None => Return out_path end,
     World (<[out_path := audio_payload cs]> (files w))
           (calls w ++ [CallEdge t voice rate])%list (page w)).
Proof.
  intros He Hcs. run. rewrite Hvoice, Hrate. cbn. rewrite He.
  rewrite (write_audio_run _ _ Hcs _ _ _ []) by apply lookup_insert_eq.
  rewrite insert_insert_eq. cbn. destruct failure; reflexivity.
Qed.

Lemma synthesize_edge_tts_prefix
    (cs : list chunk) (failure : option raised) (w : world) :
  edge_stream t voice rate = EdgeStreams cs failure ->
  exists n, n <= length cs
    /\ files (snd (synthesize_edge_tts t lang gender speed out_path w))
       = <[out_path := audio_payload (take n cs)]> (files w).
Proof.
  intros He. run. rewrite Hvoice, Hrate. cbn. rewrite He.
  destruct (write_audio_prefix out_path cs (<[out_path := []]> (files w))
              (calls w ++ [CallEdge t voice rate])%list (page w) [])
    as (n & Hn & Hrun); [apply lookup_insert_eq|].
  exists n. split; [exact Hn|].
  destruct (write_audio out_path cs _) as [[u|e] w']; cbn [snd] in *; subst w'.
  - destruct failure; cbn; rewrite insert_insert_eq; reflexivity.
  - cbn. rewrite insert_insert_eq. reflexivity.
Qed.

End Primary.

(** C8. On the primary path, for every sequence of chunks [cs] the stream
    yields, the output file holds the payloads of the chunks of type
    "audio" in the order of arrival, and nothing else: those of the chunks
    consumed, which are all of [cs] when every audio chunk carries its
    payload.  The chunks of any other type add no byte, and no other file
    changes. *)
Theorem synthesize_edge_tts_writes_audio_only
    `{Services} (t : text) (lang gender : string) (speed : float)
    (out_path voice rate : string) (cs : list chunk) (failure : option raised)
    (w : world) :
  resolve_voice lang gender = Return voice ->
  speed_to_edge_rate speed = Return rate ->
  edge_stream t voice rate = EdgeStreams cs failure ->
  let w' := snd (synthesize_edge_tts t lang gender speed out_path w) in
  (exists n, n <= length cs
     /\ files w' = <[out_path := audio_payload (take n cs)]> (files w))
  /\ (Forall well_formed_chunk cs ->
      files w' = <[out_path := audio_payload cs]> (files w)).
Proof.
  intros Hv Hr He w'. subst w'. split.
  - exact (synthesize_edge_tts_prefix _ _ _ _ _ _ _ Hv Hr _ _ _ He).
  - intros Hcs.
    rewrite (synthesize_edge_tts_streams _ _ _ _ _ _ _ Hv Hr _ _ _ He Hcs).
    reflexivity.
Qed.

Lemma synthesize_edge_tts_writes_audio_only_witness :
  files (snd (synthesize_edge_tts (H := sample_services)
                [72; 105]%N "en" "Female" 1.25 "outputs/a.mp3" empty_world))
  = <["outputs/a.mp3" := [Byte.x01; Byte.x02; Byte.x03]]> ∅.
Proof.
  refine (proj2 (synthesize_edge_tts_writes_audio_only (H := sample_services)
           [72; 105]%N "en" "Female" 1.25 "outputs/a.mp3"
           "en-US-JennyNeural" "+25%"
           [Chunk "audio" (Some [Byte.x01; Byte.x02]);
            Chunk "WordBoundary" None;
            Chunk "audio" (Some [Byte.x03])] None empty_world _ _ _) _).
  - vm_compute. reflexivity.
  - vm_compute. reflexivity.
  - reflexivity.
  - repeat constructor; unfold well_formed_chunk; cbn; intros; eauto; discriminate.
Defined.

(** C3, as the claim states it, fails: with a primary backend that cannot
    be reached the failure propagates, but the output file has been created
    by then, and the page offers this empty file. *)
Lemma unreachable_primary_leaves_file :
  let out := out_path_of (H := unreachable_primary) "en" "Female" 1.0 sample_now in
  let r := synthesize_edge_tts (H := unreachable_primary)
             [72; 105]%N "en" "Female" 1.0 out empty_world in
  files empty_world !! out = None
  /\ returns (fst r) = false
  /\ files (snd r) !! out = Some []
  /\ page (snd (on_generate (H := unreachable_primary) [72; 105]%N "en" "Female"
                  "Edge-TTS (recommended)" 1.0 sample_now empty_world))
     = [UiError "Error: Cannot connect to host speech.platform.bing.com:443";
        UiAudio [];
        UiDownload [] "tekross_voice_en_female_1_0x_20240102_030405.mp3"].
Proof. vm_compute. repeat split. Qed.

(** C3, amended.  A failure of the primary service propagates unchanged.
    When the service refuses the request before the stream starts, no file
    is produced.  When the stream fails, the output file has been created
    and holds the audio received before the failure: an empty file, if the
    stream fails before its first chunk. *)
Theorem synthesize_edge_tts_failure
    `{Services} (t : text) (lang gender : string) (speed : float)
    (out_path voice rate : string) (w : world) :
  resolve_voice lang gender = Return voice ->
  speed_to_edge_rate speed = Return rate ->
  let r := synthesize_edge_tts t lang gender speed out_path w in
  (forall e, edge_stream t voice rate = EdgeRejects e ->
     fst r = Raise e /\ files (snd r) = files w)
  /\ (forall cs e, edge_stream t voice rate = EdgeStreams cs (Some e) ->
      Forall well_formed_chunk cs ->
      fst r = Raise e
      /\ files (snd r) = <[out_path := audio_payload cs]> (files w))
  /\ (forall e, edge_stream t voice rate = EdgeStreams [] (Some e) ->
      fst r = Raise e /\ files (snd r) !! out_path = Some []).
Proof.
  intros Hv Hr r. subst r. split; [|split].
  - intros e He.
    rewrite (synthesize_edge_tts_rejected _ _ _ _ _ _ _ Hv Hr _ _ He).
    split; reflexivity.
  - intros cs e He Hcs.
    rewrite (synthesize_edge_tts_streams _ _ _ _ _ _ _ Hv Hr _ _ _ He Hcs).
    split; reflexivity.
  - intros e He.
    rewrite (synthesize_edge_tts_streams _ _ _ _ _ _ _ Hv Hr _ _ _ He (List.Forall_nil _)).
    split; [reflexivity|]. apply lookup_insert_eq.
Qed.

Lemma synthesize_edge_tts_failure_witness :
  let r := synthesize_edge_tts (H := unreachable_primary)
             [72; 105]%N "en" "Female" 1.0 "outputs/a.mp3" empty_world in
  fst r = Raise (Exn (OtherException "ClientConnectorError" false)
                   "Cannot connect to host speech.platform.bing.com:443")
  /\ files (snd r) !! "outputs/a.mp3" = Some [].
Proof.
  refine (proj2 (proj2 (synthesize_edge_tts_failure (H := unreachable_primary)
           [72; 105]%N "en" "Female" 1.0 "outputs/a.mp3"
           "en-US-JennyNeural" "+0%" empty_world _ _)) _ _).
  - vm_compute. reflexivity.
  - vm_compute. reflexivity.
  - reflexivity.
Defined.

(** *** The handler: blank text *)

Lemma lstrip_all_space (t : text) : forallb isspace t = true -> lstrip t = [].
Proof.
  induction t as [|c t IH]; cbn; [reflexivity|].
  destruct (isspace c); [exact IH | discriminate].
Qed.

Lemma strip_all_space (t : text) : forallb isspace t = true -> strip t = [].
Proof. intros Ht. unfold strip. rewrite (lstrip_all_space t Ht). reflexivity. Qed.

(** C4. A text that is empty or holds only whitespace is rejected before
    any backend is invoked: the handler shows a warning, makes no call to a
    service and leaves every file as it was. *)
Theorem on_generate_rejects_blank
    `{Services} (t : text) (lang gender engine : string) (speed : float)
    (now : datetime) (w : world) :
  forallb isspace t = true ->
  on_generate t lang gender engine speed now w
  = (Return tt,
     World (files w) (calls w)
       (page w ++ [UiWarning "Please enter some text. / テキストを入力してください。"])%list).
Proof.
  intros Ht. unfold on_generate. rewrite (strip_all_space t Ht). reflexivity.
Qed.

Lemma on_generate_rejects_blank_witness :
  on_generate (H := sample_services) [32; 9; 12288; 10]%N "ja" "Male"
    "Edge-TTS (recommended)" 1.5 sample_now empty_world
  = (Return tt,
     World ∅ [] [UiWarning "Please enter some text. / テキストを入力してください。"]).
Proof.
  apply (on_generate_rejects_blank (H := sample_services) [32; 9; 12288; 10]%N
           "ja" "Male" "Edge-TTS (recommended)" 1.5 sample_now empty_world).
  vm_compute. reflexivity.
Defined.

(** *** The secondary service *)

Ltac map_norm :=
  apply map_eq; intros ?;
  repeat (rewrite lookup_insert || rewrite lookup_delete);
  repeat case_decide; congruence.

Section Secondary.
Context `{Services}.
Variables (t : text) (lang : string) (speed : float) (out_path tmp : string).
Hypothesis Htmp : with_suffix out_path ".tmp.mp3" = Return tmp.

(** The run of [synthesize_gtts], case by case. *)
Lemma synthesize_gtts_run (w : world) :
  synthesize_gtts t lang speed out_path w
  = let cl := (calls w ++ [CallGtts t lang])%list in
    match gtts_save t lang with
    | GttsFails e partial =>
        (Raise e,
         World (match partial with
                | Some b => <[tmp := b]> (files w)
                | None => files w
                end) cl (page w))
    | GttsSaved audio =>
        if is_unity speed then
          (Return out_path,
           World (<[out_path := audio]> (delete tmp (files w))) cl (page w))
        else
          let cl' := (cl ++ [CallStretch audio speed])%list in
          match tempo_stretch audio speed with
          | StretchDone adjusted =>
              (Return out_path,
               World (<[out_path := adjusted]> (delete tmp (files w))) cl' (page w))
          | StretchFails e _ =>
              (Raise (Exn RuntimeError (speed_change_failed ++ exn_str e)),
               World (<[out_path := audio]> (delete tmp (files w))) cl' (page w))
          end
    end.
Proof.
  pose proof (with_suffix_tmp_ne _ _ Htmp) as Hne.
  destruct w as [fs cl pg]. unfold synthesize_gtts. run. rewrite Htmp.
  cbn -[is_unity].
  destruct (gtts_save t lang) as [audio|e [b|]]; cbn -[is_unity].
  2: { rewrite lookup_insert_eq, insert_insert_eq. reflexivity. }
  2: reflexivity.
  rewrite lookup_insert_eq. cbn -[is_unity].
  destruct (is_unity speed); cbn.
  - rewrite lookup_insert_eq. cbn. do 2 f_equal. map_norm.
  - rewrite lookup_insert_eq. cbn.
    destruct (tempo_stretch audio speed) as [adjusted|e [b|]]; cbn.
    + rewrite lookup_insert_eq. cbn. do 2 f_equal. map_norm.
    + rewrite lookup_insert_eq. cbn.
      rewrite lookup_insert_ne, lookup_insert_ne, lookup_insert_eq by congruence.
      cbn. do 2 f_equal. map_norm.
    + rewrite lookup_insert_eq. cbn. do 2 f_equal. map_norm.
Qed.
End Secondary.


(** *** Speeds, digits and the clock *)

Lemma is_unity_one : is_unity 1.0 = true.
Proof. vm_compute. reflexivity. Qed.

Lemma is_unity_options (x : float) :
  In x SPEED_OPTIONS -> x <> 1.0%float -> is_unity x = false.
Proof.
  unfold SPEED_OPTIONS. cbn.
  intros [<-|[<-|[<-|[<-|[<-|[]]]]]] Hx;
    try (vm_compute; reflexivity); contradiction.
Qed.

Ltac Zify.zify_post_hook ::= Z.to_euclidean_division_equations.

Lemma digit_code (n : N) : N_of_ascii (digit n) = (48 + n mod 10)%N.
Proof.
  unfold digit. apply N_ascii_embedding.
  lia.
Qed.

Lemma digit_not_sep (n : N) : digit n <> "/"%char.
Proof.
  intros E. apply (f_equal N_of_ascii) in E. rewrite digit_code in E.
  cbn in E. lia.
Qed.

Lemma digit_inj (a b : N) : digit a = digit b -> (a mod 10 = b mod 10)%N.
Proof.
  intros E. apply (f_equal N_of_ascii) in E. rewrite !digit_code in E. lia.
Qed.

Lemma strftime_length (d : datetime) : String.length (strftime d) = 15.
Proof. reflexivity. Qed.


Lemma String_inj_tail (c c' : ascii) (a b : string) :
  String c a = String c' b -> a = b.
Proof. now intros [= _ ->]. Qed.

Lemma pad2_inj (n m : N) (r r' : string) :
  (n < 100)%N -> (m < 100)%N -> pad2 n r = pad2 m r' -> n = m /\ r = r'.
Proof.
  unfold pad2. intros Hn Hm [= Hhi Hlo ->].
  apply digit_inj in Hhi, Hlo. split; [lia | reflexivity].
Qed.

Lemma pad4_inj (n m : N) (r r' : string) :
  (n < 10000)%N -> (m < 10000)%N -> pad4 n r = pad4 m r' -> n = m /\ r = r'.
Proof.
  unfold pad4. intros Hn Hm E.
  apply pad2_inj in E as [Hhi E]; [|lia..].
  apply pad2_inj in E as [Hlo ->]; [|lia..].
  split; [lia | reflexivity].
Qed.

Lemma strftime_inj (d1 d2 : datetime) :
  valid_datetime d1 = true -> valid_datetime d2 = true ->
  strftime d1 = strftime d2 -> d1 = d2.
Proof.
  destruct d1 as [y1 m1 a1 h1 i1 s1], d2 as [y2 m2 a2 h2 i2 s2].
  unfold valid_datetime, strftime. cbn [year month day hour minute second].
  rewrite !Bool.andb_true_iff, !N.leb_le. intros V1 V2 E.
  apply pad4_inj in E as [-> E]; [|lia..].
  apply pad2_inj in E as [-> E]; [|lia..].
  apply pad2_inj in E as [-> E]; [|lia..].
  apply String_inj_tail in E.
  apply pad2_inj in E as [-> E]; [|lia..].
  apply pad2_inj in E as [-> E]; [|lia..].
  apply pad2_inj in E as [-> _]; [|lia..].
  reflexivity.
Qed.

(** *** The handler on the secondary path *)

Lemma offered_audio_app (a b : list ui) :
  offered_audio (a ++ b) = (offered_audio a ++ offered_audio b)%list.
Proof. apply omap_app. Qed.

Section Handler.
Context `{Services}.
Variables (t : text) (lang gender engine : string) (speed : float) (now : datetime).

(** The temporary path of the handler's output path always exists. *)
Lemma out_path_with_suffix :
  exists stem,
    out_path_of lang gender speed now = stem ++ ".mp3"
    /\ with_suffix (out_path_of lang gender speed now) ".tmp.mp3"
       = Return (stem ++ ".tmp.mp3").
Proof.
  set (d := digit (second now)).
  set (a := "outputs/tekross_voice_" ++ lang ++ "_" ++ lower gender ++ "_"
            ++ replace_char "." "_" (float_str speed) ++ "x_"
            ++ pad4 (year now) (pad2 (month now) (pad2 (day now) (String "_"
                 (pad2 (hour now) (pad2 (minute now)
                    (String (digit (second now / 10)) EmptyString))))))).
  assert (E : out_path_of lang gender speed now = a ++ String d ".mp3").
  { subst a d. unfold out_path_of, path_join, OUTPUT_DIR, filename, strftime,
      pad4, pad2. rewrite !append_assoc. simpl. reflexivity. }
  exists (a ++ String d EmptyString). rewrite E. split.
  - rewrite append_assoc. reflexivity.
  - rewrite with_suffix_mp3 by apply digit_not_sep.
    rewrite append_assoc. reflexivity.
Qed.

Let name := filename lang gender speed (strftime now).
Let out := path_join OUTPUT_DIR name.

(** The run of the handler on the secondary path, once the backend has
    delivered its audio. *)
Lemma on_generate_gtts (w : world) (audio : bytes) (tmp : string) :
  strip t <> [] ->
  startswith engine "Edge-TTS" = false ->
  with_suffix out ".tmp.mp3" = Return tmp ->
  gtts_save t lang = GttsSaved audio ->
  on_generate t lang gender engine speed now w
  = let cl := (calls w ++ [CallGtts t lang])%list in
    let done b :=
      [UiSuccess "Done! / 生成しました。"; UiAudio b; UiDownload b name;
       UiInfo ("Saved to: " ++ out)] in
    if is_unity speed then
      (Return tt,
       World (<[out := audio]> (delete tmp (files w))) cl (page w ++ done audio)%list)
    else
      let cl' := (cl ++ [CallStretch audio speed])%list in
      match tempo_stretch audio speed with
      | StretchDone adjusted =>
          (Return tt,
           World (<[out := adjusted]> (delete tmp (files w))) cl'
             (page w ++ done adjusted)%list)
      | StretchFails e _ =>
          (Return tt,
           World (<[out := audio]> (delete tmp (files w))) cl'
             (page w ++ [UiError ("Error: " ++ speed_change_failed ++ exn_str e);
                         UiAudio audio; UiDownload audio name])%list)
      end.
Proof.
  intros Ht He Htmp Ha. unfold on_generate.
  destruct (strip t) as [|c r]; [contradiction|].
  fold name. fold out. clearbody out name. rewrite He.
  unfold try_except at 1. unfold mbind at 1, M_bind at 1.
  rewrite (synthesize_gtts_run _ _ _ _ _ Htmp), Ha. cbn zeta.
  destruct (is_unity speed).
  - run. rewrite lookup_insert_eq. cbn. rewrite <- !app_assoc. reflexivity.
  - destruct (tempo_stretch audio speed) as [adjusted|e left].
    + run. rewrite lookup_insert_eq. cbn. rewrite <- !app_assoc. reflexivity.
    + run. rewrite lookup_insert_eq. cbn. rewrite lookup_insert_eq. cbn.
      rewrite <- !app_assoc. reflexivity.
Qed.

(** The handler makes the calls its synthesis makes, on the secondary
    path. *)
Lemma on_generate_gtts_calls (w : world) :
  strip t <> [] ->
  startswith engine "Edge-TTS" = false ->
  calls (snd (on_generate t lang gender engine speed now w))
  = calls (snd (synthesize_gtts t lang speed out w)).
Proof.
  intros Ht He. unfold on_generate.
  destruct (strip t) as [|c r]; [contradiction|].
  fold name. fold out. clearbody out name. rewrite He.
  unfold try_except at 1. unfold mbind at 1, M_bind at 1.
  destruct (synthesize_gtts t lang speed out w) as [[p|[e|n m]] [fs cl pg]]; run.
  - destruct (fs !! out); cbn; [reflexivity|].
    case_bool_decide; cbn; [|reflexivity].
    destruct (fs !! out); reflexivity.
  - case_bool_decide; cbn; [|reflexivity].
    destruct (fs !! out); reflexivity.
  - reflexivity.
Qed.

End Handler.


(** *** The claims on the secondary service *)

(** C6. On the secondary path with a requested speed equal to 1.0 (the
    test [abs(speed - 1.0) < 1e-6] of the code holds), the tempo adjustment
    is never invoked: the only call made is the one to the secondary
    backend, and once that has saved its audio, the temporary file is
    renamed to the output path and the function returns that path. *)
Theorem synthesize_gtts_unity_skips_stretch
    `{Services} (t : text) (lang out_path tmp : string) (w : world) :
  with_suffix out_path ".tmp.mp3" = Return tmp ->
  is_unity 1.0 = true
  /\ forall speed, is_unity speed = true ->
     let r := synthesize_gtts t lang speed out_path w in
     calls (snd r) = (calls w ++ [CallGtts t lang])%list
     /\ forall audio, gtts_save t lang = GttsSaved audio ->
        fst r = Return out_path
        /\ files (snd r) = <[out_path := audio]> (delete tmp (files w)).
Proof.
  intros Htmp. split; [exact is_unity_one|]. intros speed Hs r. subst r.
  rewrite (synthesize_gtts_run _ _ _ _ _ Htmp), Hs. cbn zeta.
  destruct (gtts_save t lang) as [audio|e left].
  - split; [reflexivity|]. intros ? [= <-]. split; reflexivity.
  - split; [reflexivity|]. intros ? [=].
Qed.

Lemma synthesize_gtts_unity_skips_stretch_witness :
  let r := synthesize_gtts (H := sample_services) [72; 105]%N "en" 1.0
             "outputs/a.mp3" empty_world in
  fst r = Return "outputs/a.mp3"
  /\ calls (snd r) = [CallGtts [72; 105]%N "en"]
  /\ files (snd r)
     = <["outputs/a.mp3" := [Byte.x49; Byte.x44; Byte.x33]]>
         (delete "outputs/a.tmp.mp3" ∅).
Proof.
  destruct (synthesize_gtts_unity_skips_stretch (H := sample_services)
              [72; 105]%N "en" "outputs/a.mp3" "outputs/a.tmp.mp3" empty_world
              eq_refl) as [H1 Hrun].
  destruct (Hrun 1.0%float H1) as [Hcalls Hfiles].
  destruct (Hfiles [Byte.x49; Byte.x44; Byte.x33] eq_refl) as [Hr Hf].
  split; [exact Hr|]. split; [exact Hcalls | exact Hf].
Defined.

(** C2. On the secondary path with a speed the code takes as different
    from 1.0, as it does every listed speed other than 1.0, when the tempo
    adjustment fails the temporary file, which holds the audio at normal
    speed, is renamed to the output path and a [RuntimeError] that carries
    the cause is raised: after the error the output path holds the
    normal-speed audio. *)
Theorem synthesize_gtts_degraded
    `{Services} (t : text) (lang out_path tmp : string) (audio : bytes)
    (w : world) :
  with_suffix out_path ".tmp.mp3" = Return tmp ->
  gtts_save t lang = GttsSaved audio ->
  (forall x, In x SPEED_OPTIONS -> x <> 1.0%float -> is_unity x = false)
  /\ forall speed e partial,
     is_unity speed = false ->
     tempo_stretch audio speed = StretchFails e partial ->
     let r := synthesize_gtts t lang speed out_path w in
     fst r = Raise (Exn RuntimeError (speed_change_failed ++ exn_str e))
     /\ files (snd r) = <[out_path := audio]> (delete tmp (files w))
     /\ files (snd r) !! out_path = Some audio
     /\ calls (snd r)
        = (calls w ++ [CallGtts t lang; CallStretch audio speed])%list.
Proof.
  intros Htmp Ha. split; [exact is_unity_options|].
  intros speed e partial Hs Hf r. subst r.
  rewrite (synthesize_gtts_run _ _ _ _ _ Htmp), Ha, Hs, Hf. cbn.
  repeat split.
  - apply lookup_insert_eq.
  - rewrite <- app_assoc. reflexivity.
Qed.

Lemma synthesize_gtts_degraded_witness :
  let r := synthesize_gtts (H := sample_services) [72; 105]%N "en" 1.25
             "outputs/a.mp3" empty_world in
  fst r = Raise (Exn RuntimeError
                   (speed_change_failed ++ "No such file or directory: 'ffprobe'"))
  /\ files (snd r) !! "outputs/a.mp3" = Some [Byte.x49; Byte.x44; Byte.x33].
Proof.
  destruct (synthesize_gtts_degraded (H := sample_services)
              [72; 105]%N "en" "outputs/a.mp3" "outputs/a.tmp.mp3"
              [Byte.x49; Byte.x44; Byte.x33] empty_world eq_refl eq_refl)
    as [Hopt Hrun].
  destruct (Hrun 1.25%float
              (Exn FileNotFoundError "No such file or directory: 'ffprobe'")
              (Some []) eq_refl eq_refl) as (Hr & _ & Hf & _).
  split; [exact Hr | exact Hf].
Defined.

(** C10. On the secondary path the gender does not influence the audio.
    Two runs of the handler that differ only in the gender make the same
    calls to the services, the first of them to the secondary backend with
    the same text and language, and once that backend has delivered, the
    two output files hold the same content and the page offers the same
    audio; the gender shows only in the name of the output file. *)
Theorem gtts_ignores_gender
    `{Services} (t : text) (lang gender1 gender2 engine : string)
    (speed : float) (now : datetime) (w : world) :
  startswith engine "Edge-TTS" = false ->
  let w1 := snd (on_generate t lang gender1 engine speed now w) in
  let w2 := snd (on_generate t lang gender2 engine speed now w) in
  calls w1 = calls w2
  /\ (strip t <> [] ->
      exists rest, calls w1 = (calls w ++ CallGtts t lang :: rest)%list)
  /\ (strip t <> [] -> forall audio, gtts_save t lang = GttsSaved audio ->
      (exists content,
         files w1 !! out_path_of lang gender1 speed now = Some content
         /\ files w2 !! out_path_of lang gender2 speed now = Some content)
      /\ offered_audio (page w1) = offered_audio (page w2)).
Proof.
  intros He w1 w2.
  destruct (out_path_with_suffix lang gender1 speed now) as (s1 & _ & Htmp1).
  destruct (out_path_with_suffix lang gender2 speed now) as (s2 & _ & Htmp2).
  assert (Hcalls : strip t <> [] ->
            forall g tmp,
              with_suffix (out_path_of lang g speed now) ".tmp.mp3" = Return tmp ->
              calls (snd (on_generate t lang g engine speed now w))
              = (calls w ++ CallGtts t lang ::
                 match gtts_save t lang with
                 | GttsSaved audio =>
                     if is_unity speed then [] else [CallStretch audio speed]
                 | GttsFails _ _ => []
                 end)%list).
  { intros Ht g tmp Htmp. rewrite on_generate_gtts_calls by assumption.
    unfold out_path_of in Htmp.
    rewrite (synthesize_gtts_run _ _ _ _ _ Htmp). cbn zeta.
    destruct (gtts_save t lang) as [audio|e left]; [|reflexivity].
    destruct (is_unity speed); [reflexivity|].
    destruct (tempo_stretch audio speed); cbn; rewrite <- app_assoc; reflexivity. }
  split; [|split].
  - destruct (strip t) as [|c r] eqn:Ht.
    + subst w1 w2. unfold on_generate. rewrite Ht. reflexivity.
    + subst w1 w2. rewrite (Hcalls ltac:(discriminate) _ _ Htmp1).
      rewrite (Hcalls ltac:(discriminate) _ _ Htmp2). reflexivity.
  - intros Ht. subst w1. rewrite (Hcalls Ht _ _ Htmp1). eauto.
  - intros Ht audio Ha. subst w1 w2. unfold out_path_of in *.
    rewrite (on_generate_gtts _ _ _ _ _ _ _ _ _ Ht He Htmp1 Ha).
    rewrite (on_generate_gtts _ _ _ _ _ _ _ _ _ Ht He Htmp2 Ha). cbn zeta.
    destruct (is_unity speed).
    + cbn [snd files page]. rewrite !lookup_insert_eq, !offered_audio_app.
      split; [eauto | reflexivity].
    + destruct (tempo_stretch audio speed) as [adjusted|e left];
        cbn [snd files page]; rewrite !lookup_insert_eq, !offered_audio_app;
        (split; [eauto | reflexivity]).
Qed.

Lemma gtts_ignores_gender_witness :
  let w1 := snd (on_generate (H := sample_services) [72; 105]%N "ja" "Female"
                   "gTTS (fallback)" 1.0 sample_now empty_world) in
  let w2 := snd (on_generate (H := sample_services) [72; 105]%N "ja" "Male"
                   "gTTS (fallback)" 1.0 sample_now empty_world) in
  calls w1 = calls w2
  /\ offered_audio (page w1) = offered_audio (page w2).
Proof.
  destruct (gtts_ignores_gender (H := sample_services) [72; 105]%N "ja"
              "Female" "Male" "gTTS (fallback)" 1.0 sample_now empty_world
              eq_refl) as (Hc & _ & Ha).
  split; [exact Hc|].
  apply (Ha ltac:(discriminate) [Byte.x49; Byte.x44; Byte.x33] eq_refl).
Defined.

(** *** Output names *)

Section Names.
Context `{Services}.

Lemma out_path_parts (lang gender : string) (speed : float) (now : datetime) :
  out_path_of lang gender speed now
  = ("outputs/tekross_voice_" ++ lang ++ "_" ++ lower gender ++ "_"
     ++ replace_char "." "_" (float_str speed))
    ++ "x_" ++ strftime now ++ ".mp3".
Proof.
  unfold out_path_of, path_join, OUTPUT_DIR, filename.
  rewrite !append_assoc. reflexivity.
Qed.

Lemma out_path_timestamp
    (l1 g1 l2 g2 : string) (s1 s2 : float) (now1 now2 : datetime) :
  out_path_of l1 g1 s1 now1 = out_path_of l2 g2 s2 now2 ->
  "outputs/tekross_voice_" ++ l1 ++ "_" ++ lower g1 ++ "_"
    ++ replace_char "." "_" (float_str s1)
  = "outputs/tekross_voice_" ++ l2 ++ "_" ++ lower g2 ++ "_"
    ++ replace_char "." "_" (float_str s2)
  /\ strftime now1 = strftime now2.
Proof.
  rewrite !out_path_parts. intros E.
  apply append_inj_length in E as [Ep E].
  - split; [exact Ep|]. apply String.app_inj in E.
    apply (append_inj_length _ _ _ _ eq_refl) in E. apply E.
  - rewrite !length_append, !strftime_length. reflexivity.
Qed.

(** Among the values of the sidebar, the path determines the language, the
    gender, the speed tag and the timestamp. *)
Lemma out_path_sidebar
    (l1 g1 l2 g2 : string) (s1 s2 : float) (now1 now2 : datetime) :
  In l1 LANGUAGES -> In l2 LANGUAGES -> In g1 GENDERS -> In g2 GENDERS ->
  out_path_of l1 g1 s1 now1 = out_path_of l2 g2 s2 now2 ->
  l1 = l2 /\ g1 = g2
  /\ replace_char "." "_" (float_str s1) = replace_char "." "_" (float_str s2)
  /\ strftime now1 = strftime now2.
Proof.
  intros Hl1 Hl2 Hg1 Hg2 E.
  apply out_path_timestamp in E as [E Ets].
  unfold LANGUAGES, GENDERS in *. cbn in Hl1, Hl2, Hg1, Hg2.
  destruct Hl1 as [<-|[<-|[]]], Hl2 as [<-|[<-|[]]],
           Hg1 as [<-|[<-|[]]], Hg2 as [<-|[<-|[]]];
    simpl in E; try discriminate E;
    injection E as E; repeat split; assumption.
Qed.

(** With Python's [str], the tags of the speed options are all different. *)
Lemma speed_tag_inj (s1 s2 : float) :
  prints_speed_options float_str ->
  In s1 SPEED_OPTIONS -> In s2 SPEED_OPTIONS ->
  replace_char "." "_" (float_str s1) = replace_char "." "_" (float_str s2) ->
  s1 = s2.
Proof.
  unfold prints_speed_options, SPEED_OPTIONS, SPEED_STRINGS. cbn [map In].
  intros [= H1 H2 H3 H4 H5].
  intros [<-|[<-|[<-|[<-|[<-|[]]]]]] [<-|[<-|[<-|[<-|[<-|[]]]]]];
    rewrite ?H1, ?H2, ?H3, ?H4, ?H5; cbn; intros E;
    try reflexivity; discriminate E.
Qed.

(** C9. The output path is the output directory followed by
    [tekross_voice_{language}_{gender}_{speed-with-underscore}x_{timestamp}.mp3],
    with the gender in lower case and the dot of the speed replaced.  Two
    runs whose clock readings differ, to the second, get different paths
    whatever their other parameters.  With Python's [str] on the speed
    options, their tags in the name are 0_5, 0_75, 1_0, 1_25 and 1_5, and
    among the values of the sidebar the path determines the language, the
    gender, the speed and the clock reading: the name encodes them. *)
Theorem output_name_pattern :
  (forall lang gender speed now,
     out_path_of lang gender speed now
     = OUTPUT_DIR ++ "/"
       ++ spec_artifact_name "tekross_voice" lang (lower gender)
            (replace_char "." "_" (float_str speed)) (strftime now))
  /\ (forall l1 g1 s1 now1 l2 g2 s2 now2,
      valid_datetime now1 = true -> valid_datetime now2 = true ->
      now1 <> now2 ->
      out_path_of l1 g1 s1 now1 <> out_path_of l2 g2 s2 now2)
  /\ map lower GENDERS = ["female"; "male"]
  /\ (prints_speed_options float_str ->
      (forall lang gender now,
         map (fun speed => out_path_of lang gender speed now) SPEED_OPTIONS
         = map (fun tag => "outputs/tekross_voice_" ++ lang ++ "_"
                           ++ lower gender ++ "_" ++ tag ++ "x_"
                           ++ strftime now ++ ".mp3") SPEED_TAGS)
      /\ (forall l1 g1 s1 now1 l2 g2 s2 now2,
          In l1 LANGUAGES -> In l2 LANGUAGES ->
          In g1 GENDERS -> In g2 GENDERS ->
          In s1 SPEED_OPTIONS -> In s2 SPEED_OPTIONS ->
          valid_datetime now1 = true -> valid_datetime now2 = true ->
          out_path_of l1 g1 s1 now1 = out_path_of l2 g2 s2 now2 ->
          l1 = l2 /\ g1 = g2 /\ s1 = s2 /\ now1 = now2)).
Proof.
  split; [|split; [|split; [|intros Hstr; split]]].
  - intros. reflexivity.
  - intros l1 g1 s1 now1 l2 g2 s2 now2 V1 V2 Hne E.
    apply out_path_timestamp in E as [_ E].
    apply Hne, strftime_inj; assumption.
  - reflexivity.
  - intros lang gender now.
    unfold prints_speed_options, SPEED_OPTIONS, SPEED_STRINGS in Hstr.
    cbn [map] in Hstr. injection Hstr as H1 H2 H3 H4 H5.
    unfold SPEED_OPTIONS, SPEED_TAGS, out_path_of, path_join, OUTPUT_DIR, filename.
    cbn [map]. rewrite H1, H2, H3, H4, H5. reflexivity.
  - intros l1 g1 s1 now1 l2 g2 s2 now2 Hl1 Hl2 Hg1 Hg2 Hs1 Hs2 V1 V2 E.
    destruct (out_path_sidebar _ _ _ _ _ _ _ _ Hl1 Hl2 Hg1 Hg2 E)
      as (-> & -> & Htag & Hts).
    repeat split.
    + exact (speed_tag_inj _ _ Hstr Hs1 Hs2 Htag).
    + exact (strftime_inj _ _ V1 V2 Hts).
Qed.

End Names.

Lemma output_name_pattern_witness :
  out_path_of (H := sample_services) "en" "Female" 1.25 sample_now
  = "outputs/tekross_voice_en_female_1_25x_20240102_030405.mp3"
  /\ out_path_of (H := sample_services) "en" "Female" 1.25 sample_now
     <> out_path_of (H := sample_services) "en" "Female" 1.25
          (Datetime 2024 1 2 3 4 6)
  /\ out_path_of (H := sample_services) "en" "Female" 0.5 sample_now
     <> out_path_of (H := sample_services) "en" "Female" 1.5 sample_now.
Proof.
  destruct (output_name_pattern (H := sample_services))
    as (Hname & Hdiff & _ & Hstr).
  destruct (Hstr eq_refl) as (_ & Hdecode).
  split; [|split].
  - rewrite Hname. vm_compute. reflexivity.
  - apply Hdiff; [reflexivity | reflexivity | discriminate].
  - intros E.
    apply (Hdecode "en" "Female" 0.5%float sample_now
                   "en" "Female" 1.5%float sample_now) in E
      as (_ & _ & Hs & _);
      try reflexivity; unfold LANGUAGES, GENDERS, SPEED_OPTIONS; cbn; auto 10.
    apply (f_equal (fun x => (x <? 1.0)%float)) in Hs.
    vm_compute in Hs. discriminate Hs.
Defined.

(** *** Examples *)

Example round_ties_to_even :
  map round [0.5; 1.5; 2.5; -2.5; 0.4999999; -0.0]%float
  = map Return [0; 2; 2; -2; 0; 0]%Z.
Proof. vm_compute. reflexivity. Qed.

Example speed_to_edge_rate_other :
  map speed_to_edge_rate [2.0; 0.999; 1.005; 1.01]%float
  = map Return ["+100%"; "+0%"; "+0%"; "+1%"].
Proof. vm_compute. reflexivity. Qed.

Example with_suffix_examples :
  with_suffix "a/b.c/d" ".tmp.mp3" = Return "a/b.c/d.tmp.mp3"
  /\ with_suffix "a/.bashrc" ".x" = Return "a/.bashrc.x"
  /\ with_suffix "x.tar.gz" ".x" = Return "x.tar.x"
  /\ returns (with_suffix "." ".x") = false
  /\ returns (with_suffix "/" ".x") = false.
Proof. vm_compute. repeat split. Qed.

Example strip_example :
  strip [32; 72; 105; 32; 33; 12288; 10]%N = [72; 105; 32; 33]%N.
Proof. reflexivity. Qed.

(** A run of the handler on the secondary path without the decoder: the
    error is shown, and the normal-speed audio is offered all the same. *)
Example on_generate_degraded :
  on_generate (H := sample_services) [72; 105]%N "en" "Female"
    "gTTS (fallback)" 1.25 sample_now empty_world
  = (Return tt,
     World
       {["outputs/tekross_voice_en_female_1_25x_20240102_030405.mp3"
         := [Byte.x49; Byte.x44; Byte.x33]]}
       [CallGtts [72; 105]%N "en";
        CallStretch [Byte.x49; Byte.x44; Byte.x33] 1.25]
       [UiError ("Error: " ++ speed_change_failed
                 ++ "No such file or directory: 'ffprobe'");
        UiAudio [Byte.x49; Byte.x44; Byte.x33];
        UiDownload [Byte.x49; Byte.x44; Byte.x33]
          "tekross_voice_en_female_1_25x_20240102_030405.mp3"]).
Proof. vm_compute. reflexivity. Qed.

(** A run of the handler on the primary path. *)
Example on_generate_primary :
  on_generate (H := sample_services) [72; 105]%N "ja" "Male"
    "Edge-TTS (recommended)" 0.75 sample_now empty_world
  = (Return tt,
     World
       {["outputs/tekross_voice_ja_male_0_75x_20240102_030405.mp3"
         := [Byte.x01; Byte.x02; Byte.x03]]}
       [CallEdge [72; 105]%N "ja-JP-KeitaNeural" "-25%"]
       [UiSuccess "Done! / 生成しました。";
        UiAudio [Byte.x01; Byte.x02; Byte.x03];
        UiDownload [Byte.x01; Byte.x02; Byte.x03]
          "tekross_voice_ja_male_0_75x_20240102_030405.mp3";
        UiInfo "Saved to: outputs/tekross_voice_ja_male_0_75x_20240102_030405.mp3"]).
Proof. vm_compute. reflexivity. Qed.

(** ** Further properties *)

(** *** The Rate Mapper: the shape of its result *)

Lemma pretty_N_char_digit (x : N) : is_digit (pretty_N_char x) = true.
Proof. unfold pretty_N_char. repeat case_match; reflexivity. Qed.

Lemma pretty_N_go_digits (x : N) :
  forall s, exists d,
    pretty_N_go x s = d ++ s /\ all_digits d = true
    /\ ((0 < x)%N -> d <> EmptyString).
Proof.
  induction (N.lt_wf_0 x) as [x _ IH]. intros s.
  destruct (N.eq_dec x 0%N) as [->|Hx].
  - exists EmptyString. rewrite pretty_N_go_0. repeat split. lia.
  - rewrite pretty_N_go_step by lia.
    destruct (IH (x / 10)%N ltac:(apply N.div_lt; lia)
                (String (pretty_N_char (x mod 10)) s)) as (d & -> & Hd & _).
    exists (d ++ String (pretty_N_char (x mod 10)) EmptyString).
    split; [now rewrite append_assoc|]. split.
    + clear -Hd. induction d as [|c d IHd]; cbn in *.
      * now rewrite pretty_N_char_digit.
      * apply andb_prop in Hd as [-> Hd]. now apply IHd.
    + intros _. now destruct d.
Qed.

Lemma str_int_pos_digits (p : positive) :
  all_digits (str_int (Z.pos p)) = true /\ str_int (Z.pos p) <> EmptyString.
Proof.
  unfold str_int, pretty, pretty_Z, pretty, pretty_positive, pretty, pretty_N.
  rewrite decide_False by discriminate.
  destruct (pretty_N_go_digits (N.pos p) EmptyString) as (d & -> & Hd & Hne).
  assert (E : d ++ "" = d) by (clear; induction d; cbn; congruence).
  rewrite E. split; [exact Hd | apply Hne; lia].
Qed.

Lemma str_int_neg (p : positive) :
  str_int (Z.neg p) = String "-" (str_int (Z.pos p)).
Proof. reflexivity. Qed.

(** X1. Every rate the Rate Mapper returns is a sign, [+] or [-], then at
    least one decimal digit, then a percent sign. *)
Theorem speed_to_edge_rate_signed (x : float) (s : string) :
  speed_to_edge_rate x = Return s -> signed_percentage s.
Proof.
  unfold speed_to_edge_rate. destruct (round _) as [pct|e]; [|discriminate].
  cbn [rbind]. destruct pct as [|p|p]; cbn [Z.gtb Z.ltb Z.compare].
  - intros [= <-]. exists "+"%char, "0". repeat split; auto; discriminate.
  - intros [= <-]. destruct (str_int_pos_digits p) as [Hd Hne].
    exists "+"%char, (str_int (Z.pos p)). repeat split; auto.
  - intros [= <-]. destruct (str_int_pos_digits p) as [Hd Hne].
    exists "-"%char, (str_int (Z.pos p)). repeat split; auto.
Qed.

Lemma speed_to_edge_rate_signed_witness : signed_percentage "-25%".
Proof.
  apply (speed_to_edge_rate_signed 0.75%float "-25%"). vm_compute. reflexivity.
Defined.

(** X2. The rate determines the percentage: two speeds that get the same
    rate round to the same percentage. *)
Theorem speed_to_edge_rate_inj (x y : float) (s : string) :
  speed_to_edge_rate x = Return s -> speed_to_edge_rate y = Return s ->
  round ((x - 1.0) * 100)%float = round ((y - 1.0) * 100)%float.
Proof.
  unfold speed_to_edge_rate.
  destruct (round ((x - 1.0) * 100)%float) as [p|e]; [|discriminate].
  destruct (round ((y - 1.0) * 100)%float) as [q|e]; [|discriminate].
  cbn [rbind]. intros Hp Hq. f_equal.
  assert (Hinj : forall a b : Z, str_int a ++ "%" = str_int b ++ "%" -> a = b).
  { intros a b E. apply (append_inj_length _ _ _ _ eq_refl) in E as [E _].
    now apply (inj pretty) in E. }
  destruct p as [|p|p], q as [|q|q]; cbn [Z.gtb Z.ltb Z.compare] in Hp, Hq;
    try reflexivity; injection Hp as <-; injection Hq as Hq;
    try discriminate Hq.
  - apply (Hinj (Z.pos q) 0%Z) in Hq. discriminate.
  - symmetry in Hq. apply (Hinj (Z.pos p) 0%Z) in Hq. discriminate.
  - symmetry. now apply (Hinj (Z.pos q) (Z.pos p)) in Hq.
  - symmetry. apply (Hinj (Z.pos q) (Z.pos p)) in Hq. now injection Hq as ->.
Qed.

Lemma speed_to_edge_rate_inj_witness :
  round ((1.25 - 1.0) * 100)%float = round ((1.251 - 1.0) * 100)%float.
Proof.
  apply (speed_to_edge_rate_inj 1.25%float 1.251%float "+25%");
    vm_compute; reflexivity.
Defined.

(** *** The primary service: failures and reruns *)

(** The loop stops at an audio chunk without payload. *)
Lemma write_audio_missing_data (p : string) (pre post : list chunk) (c : chunk) :
  Forall well_formed_chunk pre ->
  chunk_type c = "audio" -> chunk_data c = None ->
  forall (fs : gmap string bytes) (cl : list call) (pg : list ui) (b : bytes),
  fs !! p = Some b ->
  write_audio p (pre ++ c :: post) (World fs cl pg)
  = (Raise (Exn KeyError "'data'"),
     World (<[p := (b ++ audio_payload pre)%list]> fs) cl pg).
Proof.
  intros Hpre Hc Hd. induction Hpre as [|x pre Hx _ IH]; intros fs cl pg b Hb.
  - cbn [app write_audio]. rewrite Hc. unfold chunk_getitem_data. rewrite Hd.
    run. cbn. rewrite app_nil_r, insert_id by exact Hb. reflexivity.
  - rewrite audio_payload_cons. cbn [app write_audio].
    unfold well_formed_chunk in Hx.
    destruct (String.eqb_spec (chunk_type x) "audio") as [E|E].
    + destruct (Hx E) as [d Hxd]. unfold chunk_getitem_data at 1. rewrite Hxd.
      run. rewrite Hb. cbn [default].
      rewrite (IH _ _ _ (b ++ d)%list) by apply lookup_insert_eq.
      rewrite insert_insert_eq, app_assoc. reflexivity.
    + run. rewrite (IH _ _ _ b Hb). reflexivity.
Qed.

Section PrimaryExtra.
Context `{Services}.
Variables (t : text) (lang gender : string) (speed : float) (out_path : string).

(** X3. A speed the Rate Mapper cannot convert, one whose
    [(speed - 1.0) * 100] is a NaN or an infinity, stops the primary path
    before the service is called: the exception of [round] propagates and
    the world is left as it was, with no call made and no file opened. *)
Theorem synthesize_edge_tts_bad_speed (w : world) :
  is_finite ((speed - 1.0) * 100)%float = false ->
  exists e, speed_to_edge_rate speed = Raise e
    /\ synthesize_edge_tts t lang gender speed out_path w = (Raise e, w).
Proof.
  intros Hf. rewrite <- round_returns_iff_finite in Hf.
  unfold synthesize_edge_tts, speed_to_edge_rate.
  destruct (round _) as [pct|e]; [discriminate|]. exists e. split; [reflexivity|].
  run. rewrite resolve_voice_eq. reflexivity.
Qed.

Variables (voice rate : string).
Hypothesis Hvoice : resolve_voice lang gender = Return voice.
Hypothesis Hrate : speed_to_edge_rate speed = Return rate.

(** X4. When the stream yields an audio chunk without a ["data"] entry,
    the primary path raises [KeyError] there; the output file holds the audio
    of the chunks before it and the rest of the stream is not consumed. *)
Theorem synthesize_edge_tts_missing_data
    (pre post : list chunk) (c : chunk) (failure : option raised) (w : world) :
  edge_stream t voice rate = EdgeStreams (pre ++ c :: post) failure ->
  Forall well_formed_chunk pre ->
  chunk_type c = "audio" -> chunk_data c = None ->
  synthesize_edge_tts t lang gender speed out_path w
  = (Raise (Exn KeyError "'data'"),
     World (<[out_path := audio_payload pre]> (files w))
           (calls w ++ [CallEdge t voice rate])%list (page w)).
Proof.
  intros He Hpre Hc Hd. run. rewrite Hvoice, Hrate. cbn. rewrite He.
  rewrite (write_audio_missing_data _ _ _ _ Hpre Hc Hd _ _ _ [])
    by apply lookup_insert_eq.
  rewrite insert_insert_eq. reflexivity.
Qed.

(** X5. Running the primary synthesis a second time on the same request
    gives the same outcome and the same files: the output file is
    overwritten, not appended to.  Only the service is called once more. *)
Theorem synthesize_edge_tts_idempotent
    (cs : list chunk) (failure : option raised) (w : world) :
  edge_stream t voice rate = EdgeStreams cs failure ->
  Forall well_formed_chunk cs ->
  let once := synthesize_edge_tts t lang gender speed out_path w in
  let twice := synthesize_edge_tts t lang gender speed out_path (snd once) in
  fst twice = fst once
  /\ files (snd twice) = files (snd once)
  /\ page (snd twice) = page (snd once)
  /\ calls (snd twice) = (calls (snd once) ++ [CallEdge t voice rate])%list.
Proof.
  intros He Hcs once twice. subst once twice.
  rewrite !(synthesize_edge_tts_streams _ _ _ _ _ _ _ Hvoice Hrate _ _ _ He Hcs).
  cbn [fst snd files calls page]. rewrite insert_insert_eq. repeat split.
Qed.

End PrimaryExtra.

Lemma synthesize_edge_tts_bad_speed_witness :
  exists e,
    speed_to_edge_rate nan = Raise e
    /\ synthesize_edge_tts (H := sample_services) [72; 105]%N "en" "Female" nan
         "outputs/a.mp3" empty_world
       = (Raise e, empty_world).
Proof.
  apply (synthesize_edge_tts_bad_speed (H := sample_services)
           [72; 105]%N "en" "Female" nan "outputs/a.mp3" empty_world).
  vm_compute. reflexivity.
Defined.

Lemma synthesize_edge_tts_missing_data_witness :
  synthesize_edge_tts (H := malformed_stream_services) [72; 105]%N "en" "Female"
    1.0 "outputs/a.mp3" empty_world
  = (Raise (Exn KeyError "'data'"),
     World (<["outputs/a.mp3" := [Byte.x01; Byte.x02]]> ∅)
       [CallEdge [72; 105]%N "en-US-JennyNeural" "+0%"] []).
Proof.
  apply (synthesize_edge_tts_missing_data (H := malformed_stream_services)
           [72; 105]%N "en" "Female" 1.0 "outputs/a.mp3"
           "en-US-JennyNeural" "+0%" eq_refl eq_refl
           [Chunk "audio" (Some [Byte.x01; Byte.x02])]
           [Chunk "audio" (Some [Byte.x03])] (Chunk "audio" None) None
           empty_world eq_refl).
  - repeat constructor. unfold well_formed_chunk. cbn. eauto.
  - reflexivity.
  - reflexivity.
Defined.

Lemma synthesize_edge_tts_idempotent_witness :
  let once := synthesize_edge_tts (H := sample_services) [72; 105]%N "en"
                "Female" 1.25 "outputs/a.mp3" empty_world in
  let twice := synthesize_edge_tts (H := sample_services) [72; 105]%N "en"
                 "Female" 1.25 "outputs/a.mp3" (snd once) in
  fst twice = fst once
  /\ files (snd twice) = files (snd once)
  /\ page (snd twice) = page (snd once)
  /\ calls (snd twice)
     = (calls (snd once) ++ [CallEdge [72; 105]%N "en-US-JennyNeural" "+25%"])%list.
Proof.
  apply (synthesize_edge_tts_idempotent (H := sample_services)
           [72; 105]%N "en" "Female" 1.25 "outputs/a.mp3"
           "en-US-JennyNeural" "+25%" eq_refl eq_refl
           [Chunk "audio" (Some [Byte.x01; Byte.x02]);
            Chunk "WordBoundary" None;
            Chunk "audio" (Some [Byte.x03])] None empty_world eq_refl).
  repeat constructor; unfold well_formed_chunk; cbn; intros; eauto; discriminate.
Defined.

(** *** The secondary service: clean-up and failures *)

Section SecondaryExtra.
Context `{Services}.
Variables (t : text) (lang : string) (speed : float) (out_path tmp : string).
Hypothesis Htmp : with_suffix out_path ".tmp.mp3" = Return tmp.

(** X6. Once the secondary backend has saved its audio, the synthesis
    leaves no temporary file behind, whether the speed is 1.0, the tempo
    adjustment works or it fails; the output file exists, and no file other
    than these two is touched. *)
Theorem synthesize_gtts_cleans_up (audio : bytes) (w : world) :
  gtts_save t lang = GttsSaved audio ->
  let w' := snd (synthesize_gtts t lang speed out_path w) in
  files w' !! tmp = None
  /\ is_Some (files w' !! out_path)
  /\ forall q, q <> out_path -> q <> tmp -> files w' !! q = files w !! q.
Proof.
  intros Ha w'. subst w'.
  pose proof (with_suffix_tmp_ne _ _ Htmp) as Hne.
  rewrite (synthesize_gtts_run _ _ _ _ _ Htmp), Ha. cbn zeta.
  assert (Hfs : forall b : bytes,
            <[out_path := b]> (delete tmp (files w)) !! tmp = None
            /\ is_Some (<[out_path := b]> (delete tmp (files w)) !! out_path)
            /\ forall q, q <> out_path -> q <> tmp ->
               <[out_path := b]> (delete tmp (files w)) !! q = files w !! q).
  { intros b. split; [|split].
    - rewrite lookup_insert_ne, lookup_delete_eq by congruence. reflexivity.
    - rewrite lookup_insert_eq. eauto.
    - intros q Hq1 Hq2.
      rewrite lookup_insert_ne, lookup_delete_ne by congruence. reflexivity. }
  destruct (is_unity speed); [apply Hfs|].
  destruct (tempo_stretch audio speed); apply Hfs.
Qed.

(** X7. When the secondary backend fails, its exception propagates as it
    is, not wrapped in the [RuntimeError] of the tempo adjustment, which is
    not invoked; the output path is left as it was, and what the backend had
    written to the temporary file stays there: that file is not removed. *)
Theorem synthesize_gtts_backend_failure
    (e : exn) (partial : option bytes) (w : world) :
  gtts_save t lang = GttsFails e partial ->
  let r := synthesize_gtts t lang speed out_path w in
  fst r = Raise e
  /\ calls (snd r) = (calls w ++ [CallGtts t lang])%list
  /\ files (snd r) !! out_path = files w !! out_path
  /\ files (snd r) !! tmp
     = match partial with Some b => Some b | None => files w !! tmp end.
Proof.
  intros Hf r. subst r.
  pose proof (with_suffix_tmp_ne _ _ Htmp) as Hne.
  rewrite (synthesize_gtts_run _ _ _ _ _ Htmp), Hf. cbn.
  destruct partial as [b|]; repeat split.
  - rewrite lookup_insert_ne by congruence. reflexivity.
  - apply lookup_insert_eq.
Qed.

(** X8. On the secondary path at a speed the code takes as different from
    1.0, when the tempo adjustment works the output file holds the adjusted
    audio, not the normal-speed one, and the function returns the output
    path after one call to each of the two services. *)
Theorem synthesize_gtts_adjusted (audio adjusted : bytes) (w : world) :
  gtts_save t lang = GttsSaved audio ->
  is_unity speed = false ->
  tempo_stretch audio speed = StretchDone adjusted ->
  let r := synthesize_gtts t lang speed out_path w in
  fst r = Return out_path
  /\ files (snd r) !! out_path = Some adjusted
  /\ calls (snd r) = (calls w ++ [CallGtts t lang; CallStretch audio speed])%list.
Proof.
  intros Ha Hs Hd r. subst r.
  rewrite (synthesize_gtts_run _ _ _ _ _ Htmp), Ha, Hs, Hd. cbn.
  repeat split; [apply lookup_insert_eq | rewrite <- app_assoc; reflexivity].
Qed.

End SecondaryExtra.

Lemma synthesize_gtts_cleans_up_witness :
  let w' := snd (synthesize_gtts (H := sample_services) [72; 105]%N "en" 1.25
                   "outputs/a.mp3"
                   (World {["outputs/a.tmp.mp3" := [Byte.x00]]} [] [])) in
  files w' !! "outputs/a.tmp.mp3" = None
  /\ is_Some (files w' !! "outputs/a.mp3").
Proof.
  destruct (synthesize_gtts_cleans_up (H := sample_services) [72; 105]%N "en"
              1.25 "outputs/a.mp3" "outputs/a.tmp.mp3" eq_refl
              [Byte.x49; Byte.x44; Byte.x33]
              (World {["outputs/a.tmp.mp3" := [Byte.x00]]} [] []) eq_refl)
    as (Htmp & Hout & _).
  split; [exact Htmp | exact Hout].
Defined.

Lemma synthesize_gtts_backend_failure_witness :
  let r := synthesize_gtts (H := faulty_services) [72; 105]%N "en" 1.25
             "outputs/a.mp3" empty_world in
  fst r = Raise (Exn (OtherException "gTTSError" false) "Failed to connect")
  /\ calls (snd r) = [CallGtts [72; 105]%N "en"]
  /\ files (snd r) !! "outputs/a.mp3" = None
  /\ files (snd r) !! "outputs/a.tmp.mp3" = Some [].
Proof.
  apply (synthesize_gtts_backend_failure (H := faulty_services) [72; 105]%N "en"
           1.25 "outputs/a.mp3" "outputs/a.tmp.mp3" eq_refl
           (Exn (OtherException "gTTSError" false) "Failed to connect")
           (Some []) empty_world eq_refl).
Defined.

Lemma synthesize_gtts_adjusted_witness :
  let r := synthesize_gtts (H := unreachable_primary) [72; 105]%N "en" 1.5
             "outputs/a.mp3" empty_world in
  fst r = Return "outputs/a.mp3"
  /\ files (snd r) !! "outputs/a.mp3" = Some [Byte.x49; Byte.x44; Byte.x33]
  /\ calls (snd r)
     = [CallGtts [72; 105]%N "en";
        CallStretch [Byte.x49; Byte.x44; Byte.x33] 1.5].
Proof.
  apply (synthesize_gtts_adjusted (H := unreachable_primary) [72; 105]%N "en"
           1.5 "outputs/a.mp3" "outputs/a.tmp.mp3" eq_refl
           [Byte.x49; Byte.x44; Byte.x33] [Byte.x49; Byte.x44; Byte.x33]
           empty_world eq_refl eq_refl eq_refl).
Defined.

(** *** The handler as a whole *)

Lemma lstrip_nil_inv (t : text) : lstrip t = [] -> forallb isspace t = true.
Proof.
  induction t as [|c t IH]; cbn; [reflexivity|].
  destruct (isspace c); [exact IH | discriminate].
Qed.

Lemma lstrip_head (t : text) (c : N) (r : text) :
  lstrip t = c :: r -> isspace c = false.
Proof.
  induction t as [|x t IH]; cbn; [discriminate|].
  destruct (isspace x) eqn:E; [exact IH|]. now intros [= <- _].
Qed.

Lemma strip_nil_iff (t : text) : strip t = [] <-> forallb isspace t = true.
Proof.
  split; [|apply strip_all_space].
  unfold strip, rstrip. intros E.
  destruct (lstrip t) as [|c r] eqn:Hl; [now apply lstrip_nil_inv|].
  apply (f_equal (@rev N)) in E. rewrite rev_involutive in E. cbn [rev] in E.
  apply lstrip_nil_inv in E. rewrite forallb_app in E.
  apply andb_prop in E as [_ E]. cbn in E.
  rewrite (lstrip_head _ _ _ Hl) in E. discriminate.
Qed.

(** The primary synthesis adds at most its one call and leaves the page
    alone, whatever the service does. *)
Lemma synthesize_edge_tts_frame
    `{Services} (t : text) (lang gender : string) (speed : float)
    (out_path : string) (w : world) :
  exists fs' new,
    snd (synthesize_edge_tts t lang gender speed out_path w)
    = World fs' (calls w ++ new)%list (page w)
    /\ forallb is_edge_call new = true /\ length new <= 1.
Proof.
  destruct w as [fs cl pg]. run. rewrite resolve_voice_eq.
  set (voice := default "en-US-JennyNeural" (VOICES !! (lang, gender))).
  cbn [rbind]. destruct (speed_to_edge_rate speed) as [rate|e]; cbn.
  2: { exists fs, []. split; [now rewrite app_nil_r|]. split; [reflexivity|cbn; lia]. }
  destruct (edge_stream t voice rate) as [e|cs failure]; cbn.
  { exists fs, [CallEdge t voice rate]. split; [reflexivity|]. split; [reflexivity|cbn; lia]. }
  destruct (write_audio_prefix out_path cs (<[out_path := []]> fs)
              (cl ++ [CallEdge t voice rate])%list pg [])
    as (n & _ & Hrun); [apply lookup_insert_eq|].
  destruct (write_audio out_path cs _) as [[u|e] w']; cbn [snd] in Hrun; subst w'.
  - destruct failure; eexists _, [CallEdge t voice rate];
      (split; [reflexivity|]; split; [reflexivity|cbn; lia]).
  - eexists _, [CallEdge t voice rate].
    split; [reflexivity|]. split; [reflexivity|cbn; lia].
Qed.

Lemma forallb_eqb_true {A} (f : A -> bool) (l : list A) :
  forallb (fun c => Bool.eqb (f c) true) l = forallb f l.
Proof.
  induction l as [|x l IH]; cbn; [reflexivity|]. rewrite IH.
  now destruct (f x).
Qed.

Section HandlerExtra.
Context `{Services}.
Variables (t : text) (lang gender engine : string) (speed : float) (now : datetime).

Let name := filename lang gender speed (strftime now).
Let out := path_join OUTPUT_DIR name.

(** The synthesis the handler dispatches to. *)
Let dispatch : M string :=
  if startswith engine "Edge-TTS" then
    try_except_RuntimeError
      (asyncio_run (synthesize_edge_tts t lang gender speed out))
      (run_in_new_loop (synthesize_edge_tts t lang gender speed out))
  else synthesize_gtts t lang speed out.

(** What the handler does after the synthesis, from its outcome and the
    output file: an exception outside [Exception] passes through, anything
    else ends on the page. *)
Lemma on_generate_shape (w : world) :
  strip t <> [] ->
  on_generate t lang gender engine speed now w
  = let w1 := snd (dispatch w) in
    match fst (dispatch w) with
    | Return _ =>
        (Return tt,
         World (files w1) (calls w1)
           (page w1 ++
            match files w1 !! out with
            | Some b =>
                [UiSuccess "Done! / 生成しました。"; UiAudio b; UiDownload b name;
                 UiInfo ("Saved to: " ++ out)]
            | None =>
                [UiSuccess "Done! / 生成しました。";
                 UiError ("Error: " ++ exn_str (no_such_file ("'" ++ out ++ "'")))]
            end)%list)
    | Raise (Exc e) =>
        (Return tt,
         World (files w1) (calls w1)
           (page w1 ++
            match files w1 !! out with
            | Some b => [UiError ("Error: " ++ exn_str e); UiAudio b;
                         UiDownload b name]
            | None => [UiError ("Error: " ++ exn_str e)]
            end)%list)
    | Raise (Interrupt n m) => (Raise (Interrupt n m), w1)
    end.
Proof.
  intros Ht. unfold on_generate. destruct (strip t) as [|c r]; [contradiction|].
  fold name. fold out.
  change (if startswith engine "Edge-TTS" then _ else _) with dispatch.
  clearbody dispatch. clearbody out name.
  unfold try_except at 1. unfold mbind at 1, M_bind at 1.
  destruct (dispatch w) as [[p|[e|n m]] [fs cl pg]]; run.
  - destruct (fs !! out) as [b|] eqn:E; cbn.
    + rewrite <- !app_assoc. reflexivity.
    + rewrite E. cbn. rewrite <- !app_assoc. reflexivity.
  - destruct (fs !! out) as [b|] eqn:E; cbn.
    + rewrite ?E. cbn. rewrite ?E. cbn. rewrite <- !app_assoc. reflexivity.
    + reflexivity.
  - reflexivity.
Qed.

(** The synthesis leaves the page alone, and the calls it adds are to the
    services of the chosen engine only. *)
Lemma dispatch_frame (w : world) :
  exists fs' new,
    snd (dispatch w) = World fs' (calls w ++ new)%list (page w)
    /\ forallb (fun c => Bool.eqb (is_edge_call c) (startswith engine "Edge-TTS"))
         new = true
    /\ length new <= 2.
Proof.
  subst dispatch. cbn zeta. destruct (startswith engine "Edge-TTS").
  - unfold try_except_RuntimeError, asyncio_run, run_in_new_loop.
    destruct loop_running.
    + destruct w as [fs cl pg]. exists fs, []. cbn.
      rewrite app_nil_r. split; [reflexivity|]. split; [reflexivity|lia].
    + destruct (synthesize_edge_tts_frame t lang gender speed out w)
        as (fs1 & new1 & E1 & Hall1 & Hlen1).
      destruct (synthesize_edge_tts t lang gender speed out w) as [[p|e] w1];
        cbn [snd] in E1; subst w1.
      { exists fs1, new1. split; [reflexivity|]. split; [|lia].
        now rewrite forallb_eqb_true. }
      destruct (raised_is_RuntimeError e).
      * destruct (synthesize_edge_tts_frame t lang gender speed out
                    (World fs1 (calls w ++ new1)%list (page w)))
          as (fs2 & new2 & E2 & Hall2 & Hlen2).
        exists fs2, (new1 ++ new2)%list. rewrite E2. cbn [calls page].
        rewrite <- app_assoc. split; [reflexivity|]. split.
        -- now rewrite forallb_eqb_true, forallb_app, Hall1, Hall2.
        -- rewrite length_app. lia.
      * exists fs1, new1. split; [reflexivity|]. split; [|lia].
        now rewrite forallb_eqb_true.
  - destruct (out_path_with_suffix lang gender speed now) as (stem & _ & Htmp).
    change (out_path_of lang gender speed now) with out in Htmp.
    rewrite (synthesize_gtts_run _ _ _ _ _ Htmp). cbn zeta.
    destruct (gtts_save t lang) as [audio|e partial].
    + destruct (is_unity speed).
      * eexists _, [_]. split; [reflexivity|]. split; [reflexivity|cbn; lia].
      * destruct (tempo_stretch audio speed); cbn [snd]; rewrite <- app_assoc;
          eexists _, [_; _]; (split; [reflexivity|]; split; [reflexivity|cbn; lia]).
    + eexists _, [_]. split; [reflexivity|]. split; [reflexivity|cbn; lia].
Qed.



(** X10. For a text that is not blank, when the handler ends normally the
    audio it offers is the content of the output file after the synthesis:
    once for playing and once for download when the file exists, whether
    the synthesis succeeded or failed, and nothing when it does not exist.
    When an exception outside [Exception] escapes, the page gains nothing,
    whatever is in the file. *)
Theorem on_generate_offers_output_file (w : world) :
  strip t <> [] ->
  let r := on_generate t lang gender engine speed now w in
  (fst r = Return tt ->
   offered_audio (page (snd r))
   = (offered_audio (page w)
      ++ match files (snd r) !! out_path_of lang gender speed now with
         | Some b => [b; b]
         | None => []
         end)%list)
  /\ (forall n m, fst r = Raise (Interrupt n m) -> page (snd r) = page w).
Proof.
  intros Ht r. subst r. rewrite on_generate_shape by exact Ht. cbn zeta.
  change (out_path_of lang gender speed now) with out.
  destruct (dispatch_frame w) as (fs' & new & E & _). rewrite E.
  destruct (fst (dispatch w)) as [p|[e|n m]]; cbn [fst snd files calls page].
  - split; [|discriminate]. intros _. rewrite offered_audio_app. f_equal.
    destruct (fs' !! out); reflexivity.
  - split; [|discriminate]. intros _. rewrite offered_audio_app. f_equal.
    destruct (fs' !! out); reflexivity.
  - split; [discriminate|]. reflexivity.
Qed.

(** X11. The handler shows the warning, and only it, exactly when every
    character of the text is whitespace. *)
Theorem on_generate_warns_iff_blank (w : world) :
  page (snd (on_generate t lang gender engine speed now w))
  = (page w ++ [UiWarning "Please enter some text. / テキストを入力してください。"])%list
  <-> forallb isspace t = true.
Proof.
  split.
  - intros Hp. apply strip_nil_iff.
    destruct (strip t) as [|c r] eqn:Ht; [reflexivity|]. exfalso.
    rewrite on_generate_shape in Hp by (rewrite Ht; discriminate). cbn zeta in Hp.
    destruct (dispatch_frame w) as (fs' & new & E & _). rewrite E in Hp.
    destruct (fst (dispatch w)) as [p|[e|n m]]; cbn [snd files calls page] in Hp.
    + apply app_inv_head in Hp. destruct (fs' !! out); discriminate Hp.
    + apply app_inv_head in Hp. destruct (fs' !! out); discriminate Hp.
    + apply (f_equal (@length ui)) in Hp. rewrite length_app in Hp.
      cbn in Hp. lia.
  - intros Ht. unfold on_generate. rewrite (strip_all_space t Ht). reflexivity.
Qed.

(** X12. The handler calls the services of the chosen engine only: with
    an engine that starts with "Edge-TTS" every call it makes is to the
    primary service, otherwise none is; and it makes at most two calls. *)
Theorem on_generate_calls_chosen_engine (w : world) :
  exists new,
    calls (snd (on_generate t lang gender engine speed now w))
    = (calls w ++ new)%list
    /\ forallb (fun c => Bool.eqb (is_edge_call c) (startswith engine "Edge-TTS"))
         new = true
    /\ length new <= 2.
Proof.
  destruct (strip t) as [|c r] eqn:Ht.
  - exists []. unfold on_generate. rewrite Ht. cbn. rewrite app_nil_r.
    split; [reflexivity|]. split; [reflexivity|lia].
  - rewrite on_generate_shape by (rewrite Ht; discriminate). cbn zeta.
    destruct (dispatch_frame w) as (fs' & new & E & Hall & Hlen). rewrite E.
    exists new. split; [|split; assumption].
    destruct (fst (dispatch w)) as [p|[e|n m]]; reflexivity.
Qed.

End HandlerExtra.

Lemma on_generate_offers_output_file_witness :
  let r := on_generate (H := sample_services) [72; 105]%N "en" "Female"
             "gTTS (fallback)" 1.25 sample_now empty_world in
  let r' := on_generate (H := cancelled_stream_services) [72; 105]%N "en"
              "Female" "Edge-TTS (recommended)" 1.0 sample_now empty_world in
  offered_audio (page (snd r))
  = [[Byte.x49; Byte.x44; Byte.x33]; [Byte.x49; Byte.x44; Byte.x33]]
  /\ page (snd r') = [].
Proof.
  destruct (on_generate_offers_output_file (H := sample_services) [72; 105]%N
              "en" "Female" "gTTS (fallback)" 1.25 sample_now empty_world
              ltac:(discriminate)) as [Hok _].
  destruct (on_generate_offers_output_file (H := cancelled_stream_services)
              [72; 105]%N "en" "Female" "Edge-TTS (recommended)" 1.0 sample_now
              empty_world ltac:(discriminate)) as [_ Hint].
  split.
  - rewrite Hok by reflexivity. vm_compute. reflexivity.
  - apply (Hint "CancelledError" ""). vm_compute. reflexivity.
Defined.

Section HandlerPrimary.
Context `{Services}.
Variables (t : text) (lang gender engine : string) (speed : float) (now : datetime).
Variables (voice rate : string).
Hypothesis Ht : strip t <> [].
Hypothesis Hengine : startswith engine "Edge-TTS" = true.
Hypothesis Hvoice : resolve_voice lang gender = Return voice.
Hypothesis Hrate : speed_to_edge_rate speed = Return rate.

Let name := filename lang gender speed (strftime now).
Let out := path_join OUTPUT_DIR name.

(** The run of the handler on the primary path, for a stream of chunks
    that carry their payloads. *)
Lemma on_generate_primary_run
    (cs : list chunk) (failure : option raised) (w : world) :
  loop_running = false ->
  edge_stream t voice rate = EdgeStreams cs failure ->
  Forall well_formed_chunk cs ->
  on_generate t lang gender engine speed now w
  = let c := CallEdge t voice rate in
    let audio := audio_payload cs in
    let fs := <[out := audio]> (files w) in
    match failure with
    | None =>
        (Return tt,
         World fs (calls w ++ [c])%list
           (page w ++ [UiSuccess "Done! / 生成しました。"; UiAudio audio;
                       UiDownload audio name; UiInfo ("Saved to: " ++ out)])%list)
    | Some (Exc e) =>
        (Return tt,
         World fs (calls w ++ if is_RuntimeError e then [c; c] else [c])%list
           (page w ++ [UiError ("Error: " ++ exn_str e);
                       UiAudio audio; UiDownload audio name])%list)
    | Some (Interrupt n m) =>
        (Raise (Interrupt n m), World fs (calls w ++ [c])%list (page w))
    end.
Proof.
  intros Hloop He Hcs. rewrite on_generate_shape by exact Ht.
  fold name. fold out. clearbody out name. rewrite Hengine.
  unfold try_except_RuntimeError, asyncio_run, run_in_new_loop. rewrite Hloop.
  rewrite (synthesize_edge_tts_streams _ _ _ _ _ _ _ Hvoice Hrate _ _ _ He Hcs).
  destruct failure as [[e|n m]|].
  - cbn [raised_is_RuntimeError]. destruct (is_RuntimeError e).
    + rewrite (synthesize_edge_tts_streams _ _ _ _ _ _ _ Hvoice Hrate _ _ _ He Hcs).
      cbn [fst snd files calls page]. rewrite lookup_insert_eq, insert_insert_eq.
      rewrite <- app_assoc. reflexivity.
    + cbn [fst snd files calls page]. rewrite lookup_insert_eq. reflexivity.
  - reflexivity.
  - cbn [fst snd files calls page]. rewrite lookup_insert_eq. reflexivity.
Qed.

(** X13. On the primary path, outside a running event loop, when the
    stream delivers its chunks and ends, the handler leaves the audio of the
    stream in the output file after one call to the service, and the page
    shows the success, that audio for playing and for download under the
    file name, and where it was saved. *)
Theorem on_generate_primary_success (cs : list chunk) (w : world) :
  loop_running = false ->
  edge_stream t voice rate = EdgeStreams cs None ->
  Forall well_formed_chunk cs ->
  let w' := snd (on_generate t lang gender engine speed now w) in
  files w' = <[out_path_of lang gender speed now := audio_payload cs]> (files w)
  /\ calls w' = (calls w ++ [CallEdge t voice rate])%list
  /\ page w'
     = (page w ++ [UiSuccess "Done! / 生成しました。"; UiAudio (audio_payload cs);
                   UiDownload (audio_payload cs)
                     (filename lang gender speed (strftime now));
                   UiInfo ("Saved to: " ++ out_path_of lang gender speed now)])%list.
Proof.
  intros Hloop He Hcs w'. subst w'.
  rewrite (on_generate_primary_run _ _ _ Hloop He Hcs). repeat split.
Qed.

(** X14. On the primary path, outside a running event loop, when the
    stream fails with a [RuntimeError] the handler takes it for the refusal
    of [asyncio.run] and starts the synthesis a second time: the service is
    called twice; for any other exception it is called once.  A failure of
    another class that derives from [Exception] is shown on the page, with
    the audio received before it; an exception outside [Exception] escapes
    the handler, which shows nothing although the output file holds the
    audio received. *)
Theorem on_generate_primary_retries_on_RuntimeError
    (cs : list chunk) (e : raised) (w : world) :
  loop_running = false ->
  edge_stream t voice rate = EdgeStreams cs (Some e) ->
  Forall well_formed_chunk cs ->
  let r := on_generate t lang gender engine speed now w in
  calls (snd r)
  = (calls w ++ if raised_is_RuntimeError e
                then [CallEdge t voice rate; CallEdge t voice rate]
                else [CallEdge t voice rate])%list
  /\ (forall e0 : exn, e = Exc e0 -> is_RuntimeError e0 = false ->
      fst r = Return tt
      /\ page (snd r)
         = (page w ++ [UiError ("Error: " ++ exn_str e0);
                       UiAudio (audio_payload cs);
                       UiDownload (audio_payload cs)
                         (filename lang gender speed (strftime now))])%list)
  /\ (forall n m, e = Interrupt n m ->
      fst r = Raise (Interrupt n m)
      /\ page (snd r) = page w
      /\ files (snd r) !! out_path_of lang gender speed now
         = Some (audio_payload cs)).
Proof.
  intros Hloop He Hcs r. subst r.
  rewrite (on_generate_primary_run _ _ _ Hloop He Hcs). cbn zeta.
  destruct e as [e|n m]; cbn [raised_is_RuntimeError fst snd files calls page].
  - split; [reflexivity|]. split; [|discriminate].
    intros e0 [= <-] _. split; reflexivity.
  - split; [reflexivity|]. split; [discriminate|].
    intros n' m' [= <- <-]. repeat split. apply lookup_insert_eq.
Qed.

(** X15. On the primary path inside a running event loop the synthesis
    never starts: [asyncio.run] refuses, the new loop of the fallback
    refuses as well, no service is called, no file changes, and the page
    shows the error of the fallback. *)
Theorem on_generate_primary_in_running_loop (w : world) :
  loop_running = true ->
  let w' := snd (on_generate t lang gender engine speed now w) in
  files w' = files w /\ calls w' = calls w
  /\ exists rest,
       page w'
       = (page w
          ++ UiError "Error: Cannot run the event loop while another loop is running"
             :: rest)%list.
Proof.
  intros Hloop w'. subst w'. rewrite on_generate_shape by exact Ht.
  rewrite Hengine.
  unfold try_except_RuntimeError, asyncio_run, run_in_new_loop. rewrite Hloop.
  cbn. repeat split. destruct (files w !! _); eauto.
Qed.

End HandlerPrimary.

Lemma on_generate_primary_success_witness :
  let w' := snd (on_generate (H := sample_services) [72; 105]%N "ja" "Male"
                   "Edge-TTS (recommended)" 0.75 sample_now empty_world) in
  files w'
  = <[out_path_of (H := sample_services) "ja" "Male" 0.75 sample_now
      := [Byte.x01; Byte.x02; Byte.x03]]> ∅
  /\ calls w' = [CallEdge [72; 105]%N "ja-JP-KeitaNeural" "-25%"].
Proof.
  destruct (on_generate_primary_success (H := sample_services) [72; 105]%N "ja"
              "Male" "Edge-TTS (recommended)" 0.75 sample_now
              "ja-JP-KeitaNeural" "-25%" ltac:(discriminate) eq_refl eq_refl
              eq_refl
              [Chunk "audio" (Some [Byte.x01; Byte.x02]);
               Chunk "WordBoundary" None;
               Chunk "audio" (Some [Byte.x03])] empty_world eq_refl eq_refl)
    as (Hf & Hc & _).
  - repeat constructor; unfold well_formed_chunk; cbn; intros; eauto; discriminate.
  - split; [exact Hf | exact Hc].
Defined.

Lemma on_generate_primary_retries_on_RuntimeError_witness :
  calls (snd (on_generate (H := faulty_services) [72; 105]%N "en" "Female"
                "Edge-TTS (recommended)" 1.0 sample_now empty_world))
  = [CallEdge [72; 105]%N "en-US-JennyNeural" "+0%";
     CallEdge [72; 105]%N "en-US-JennyNeural" "+0%"]
  /\ fst (on_generate (H := cancelled_stream_services) [72; 105]%N "en" "Female"
            "Edge-TTS (recommended)" 1.0 sample_now empty_world)
     = Raise (Interrupt "CancelledError" "").
Proof.
  destruct (on_generate_primary_retries_on_RuntimeError (H := faulty_services)
              [72; 105]%N "en" "Female" "Edge-TTS (recommended)" 1.0 sample_now
              "en-US-JennyNeural" "+0%" ltac:(discriminate) eq_refl eq_refl
              eq_refl
              [Chunk "audio" (Some [Byte.x01; Byte.x02])]
              (Exc (Exn RuntimeError "Session is closed")) empty_world
              eq_refl eq_refl) as (Hc & _).
  { repeat constructor; unfold well_formed_chunk; cbn; intros; eauto. }
  destruct (on_generate_primary_retries_on_RuntimeError
              (H := cancelled_stream_services)
              [72; 105]%N "en" "Female" "Edge-TTS (recommended)" 1.0 sample_now
              "en-US-JennyNeural" "+0%" ltac:(discriminate) eq_refl eq_refl
              eq_refl
              [Chunk "audio" (Some [Byte.x01; Byte.x02])]
              (Interrupt "CancelledError" "") empty_world
              eq_refl eq_refl) as (_ & _ & Hint).
  { repeat constructor; unfold well_formed_chunk; cbn; intros; eauto. }
  split; [exact Hc|]. exact (proj1 (Hint "CancelledError" "" eq_refl)).
Defined.

Lemma on_generate_primary_in_running_loop_witness :
  let w' := snd (on_generate (H := nested_loop_services) [72; 105]%N "en"
                   "Female" "Edge-TTS (recommended)" 1.0 sample_now empty_world) in
  files w' = ∅ /\ calls w' = [].
Proof.
  destruct (on_generate_primary_in_running_loop (H := nested_loop_services)
              [72; 105]%N "en" "Female" "Edge-TTS (recommended)" 1.0 sample_now
              ltac:(discriminate) eq_refl empty_world eq_refl) as (Hf & Hc & _).
  split; [exact Hf | exact Hc].
Defined.

(** X16. The output path the handler builds always has a temporary path:
    [with_suffix] does not raise on it, it puts [.tmp.mp3] in the place of
    [.mp3], and the temporary path differs from the output path. *)
Theorem out_path_has_tmp_path
    `{Services} (lang gender : string) (speed : float) (now : datetime) :
  exists stem,
    out_path_of lang gender speed now = stem ++ ".mp3"
    /\ with_suffix (out_path_of lang gender speed now) ".tmp.mp3"
       = Return (stem ++ ".tmp.mp3")
    /\ stem ++ ".tmp.mp3" <> out_path_of lang gender speed now.
Proof.
  destruct (out_path_with_suffix lang gender speed now) as (stem & Hout & Htmp).
  exists stem. split; [exact Hout|]. split; [exact Htmp|].
  exact (with_suffix_tmp_ne _ _ Htmp).
Qed.
